(** * Verification of the YouTube audio-analysis service

    A shallow embedding of

    - [backend/audio_analyzer.py]: the feature aggregator ([analyze_audio],
      [calculate_valence], [calculate_intensity], [calculate_complexity],
      [determine_mood]);
    - [lambda/youtube-function/handler.py]: the request router and its two
      operations ([lambda_handler], [handle_youtube_info],
      [handle_youtube_audio_with_analysis], [is_valid_youtube_url],
      [success_response], [error_response]).

    Numbers.  The Python code computes on IEEE doubles.  Here a number is
    either an exact rational or NaN ([pyfloat]): arithmetic on finite values
    is exact (rounding and overflow to infinity are outside the model), and
    NaN behaves as in Python and NumPy (it propagates through arithmetic,
    every ordered comparison with it is false).  The external collaborators
    (librosa, yt-dlp, [json.loads]) are the fields of the record [Env]. *)

From Stdlib Require Import QArith Qminmax Qabs List String Ascii Bool Arith Lia Lqa ZArith.
Import ListNotations.

Set Implicit Arguments.
Set Warnings "-register-all".

(* ================================================================== *)
(** ** Python exceptions and the result of a call *)
(* ================================================================== *)

Inductive exn : Type :=
| ValueError (msg : string)
| IndexError (msg : string)
| TypeError (msg : string)
| AttributeError (msg : string)
| NameError (name : string)
| JSONDecodeError (msg : string)
| TimeoutExpired
| OtherError (msg : string).

(** [str(e)] *)
Definition str_exn (e : exn) : string :=
  match e with
  | ValueError m | IndexError m | TypeError m | AttributeError m
  | JSONDecodeError m | OtherError m => m
  | NameError n => ("name '" ++ n ++ "' is not defined")%string
  | TimeoutExpired => "Command timed out"
  end.

Inductive result (A : Type) : Type :=
| Ok (a : A)
| Raise (e : exn).
Arguments Ok {A} a.
Arguments Raise {A} e.

Definition rbind {A B} (c : result A) (k : A -> result B) : result B :=
  match c with
  | Ok a => k a
  | Raise e => Raise e
  end.

Declare Scope res_scope.
Delimit Scope res_scope with res.
Notation "x <- c ;; k" := (rbind c (fun x => k))
  (at level 61, c at next level, right associativity) : res_scope.

(* ================================================================== *)
(** ** Numbers: exact rationals with NaN *)
(* ================================================================== *)

Module Num.

Open Scope Q_scope.

Inductive pyfloat : Type :=
| Fin (q : Q)
| NaN.

Definition is_finite (x : pyfloat) : bool :=
  match x with Fin _ => true | NaN => false end.

Definition lift2 (op : Q -> Q -> Q) (a b : pyfloat) : pyfloat :=
  match a, b with
  | Fin x, Fin y => Fin (op x y)
  | _, _ => NaN
  end.

Definition fadd := lift2 Qplus.
Definition fsub := lift2 Qminus.
Definition fmul := lift2 Qmult.

(** Division as NumPy does it on scalars: a zero divisor gives no finite
    value ([0/0] is NaN; the infinities are outside the model). *)
Definition fdiv (a b : pyfloat) : pyfloat :=
  match a, b with
  | Fin x, Fin y => if Qeq_bool y 0 then NaN else Fin (x / y)
  | _, _ => NaN
  end.

Definition Qltb (x y : Q) : bool := negb (Qle_bool y x).

(** [a < b] and [a > b]: false as soon as one side is NaN. *)
Definition flt (a b : pyfloat) : bool :=
  match a, b with
  | Fin x, Fin y => Qltb x y
  | _, _ => false
  end.
Definition fgt (a b : pyfloat) : bool := flt b a.
Definition fle (a b : pyfloat) : bool :=
  match a, b with
  | Fin x, Fin y => Qle_bool x y
  | _, _ => false
  end.

(** Python's builtin [min(a, b)]: the first argument stays unless the
    second is strictly smaller. *)
Definition py_min (a b : pyfloat) : pyfloat := if flt b a then b else a.

(** [np.maximum], [np.minimum]: NaN propagates. *)
Definition np_maximum := lift2 Qmax.
Definition np_minimum := lift2 Qmin.

(** [np.clip(x, lo, hi)] is [np.minimum(np.maximum(x, lo), hi)]. *)
Definition np_clip (x lo hi : pyfloat) : pyfloat :=
  np_minimum (np_maximum x lo) hi.

(** Equality of numbers up to the representation of the rational. *)
Definition feq (a b : pyfloat) : Prop :=
  match a, b with
  | Fin x, Fin y => x == y
  | NaN, NaN => True
  | _, _ => False
  end.

(** [lo <= x <= hi] for a finite [x]; false for NaN. *)
Definition in_range (lo hi : Q) (x : pyfloat) : Prop :=
  match x with
  | Fin q => lo <= q /\ q <= hi
  | NaN => False
  end.

(** *** Arrays *)

(** What the code hands to [np.mean] and [np.var]: a scalar, a vector or a
    matrix (a list of rows). *)
Inductive ndarray : Type :=
| Scalar (x : pyfloat)
| Arr1 (l : list pyfloat)
| Arr2 (rows : list (list pyfloat)).

Definition ravel (a : ndarray) : list pyfloat :=
  match a with
  | Scalar x => [x]
  | Arr1 l => l
  | Arr2 rows => List.concat rows
  end.

Definition sum_list (l : list pyfloat) : pyfloat := fold_left fadd l (Fin 0).

Definition of_nat (n : nat) : pyfloat := Fin (inject_Z (Z.of_nat n)).

(** The mean of no element is [0/0]: NumPy returns NaN (with a warning that
    the script silences), it does not raise. *)
Definition mean_list (l : list pyfloat) : pyfloat :=
  fdiv (sum_list l) (of_nat (List.length l)).

(** Population variance, [mean(abs(x - mean(x))**2)]. *)
Definition var_list (l : list pyfloat) : pyfloat :=
  let m := mean_list l in
  mean_list (map (fun x => let d := fsub x m in fmul d d) l).

(** [np.mean(a)], [np.var(a)] without an axis: over the flattened array. *)
Definition np_mean (a : ndarray) : pyfloat := mean_list (ravel a).
Definition np_var (a : ndarray) : pyfloat := var_list (ravel a).

(** [np.sum(m, axis=1)], [np.mean(m, axis=1)], [np.var(m, axis=1)]: one
    value per row. *)
Definition np_sum_axis1 (rows : list (list pyfloat)) : list pyfloat :=
  map sum_list rows.
Definition np_mean_axis1 (rows : list (list pyfloat)) : list pyfloat :=
  map mean_list rows.
Definition np_var_axis1 (rows : list (list pyfloat)) : list pyfloat :=
  map var_list rows.

(** [np.argmax] on a vector.  NumPy's loop: start from element 0; a NaN is
    maximal and stops the scan; element [i] replaces the current maximum
    when [not (a[i] <= max)]. *)
Fixpoint argmax_loop (l : list pyfloat) (i : nat) (mp : pyfloat) (max_ind : nat)
  : nat :=
  match l with
  | [] => max_ind
  | x :: l' =>
      if negb (fle x mp)
      then (if is_finite x then argmax_loop l' (S i) x i else i)
      else argmax_loop l' (S i) mp max_ind
  end.

Definition np_argmax (l : list pyfloat) : result nat :=
  match l with
  | [] => Raise (ValueError "attempt to get an argmax of an empty sequence")
  | x :: l' => Ok (if is_finite x then argmax_loop l' 1 x 0 else 0%nat)
  end.

End Num.

(* ================================================================== *)
(** ** backend/audio_analyzer.py *)
(* ================================================================== *)

Module Analyzer.
Import Num.
Open Scope Q_scope.
Open Scope res_scope.

(** What the librosa calls of [analyze_audio] (lines 26 to 46) return for
    one clip: the duration, the tempo of [beat_track], the per-frame
    sequences, the MFCC matrix (13 rows) and the chroma matrix (12 rows). *)
Record Primitives : Type := {
  p_duration : pyfloat;
  p_tempo : pyfloat;
  p_spectral_centroids : list pyfloat;
  p_spectral_rolloff : list pyfloat;
  p_zero_crossing_rate : list pyfloat;
  p_mfccs : list (list pyfloat);
  p_chroma : list (list pyfloat);
  p_rms : list pyfloat
}.

Definition keys : list string :=
  ["C"; "C#"; "D"; "D#"; "E"; "F"; "F#"; "G"; "G#"; "A"; "A#"; "B"]%string.

Definition major_keys : list nat := [0; 2; 4; 5; 7; 9; 11]%nat.

(** [key_index in major_keys] *)
Definition is_major_index (key_index : nat) : bool :=
  existsb (Nat.eqb key_index) major_keys.

Definition calculate_valence (chroma_vals : list pyfloat) (tempo energy : pyfloat)
  : result pyfloat :=
  key_index <- np_argmax chroma_vals ;;
  let is_major := is_major_index key_index in
  let tempo_factor := py_min (fdiv tempo (Fin 180.0)) (Fin 1.0) in
  let energy_factor := py_min (fmul energy (Fin 10)) (Fin 1.0) in
  let valence :=
    fadd (fadd (if is_major then Fin 0.4 else Fin 0.2)
               (fmul tempo_factor (Fin 0.3)))
         (fmul energy_factor (Fin 0.3)) in
  Ok (np_clip valence (Fin 0) (Fin 1)).

Definition calculate_intensity (energy tempo : pyfloat) : pyfloat :=
  let energy_factor := py_min (fmul energy (Fin 10)) (Fin 1.0) in
  let tempo_factor := py_min (fdiv tempo (Fin 180.0)) (Fin 1.0) in
  let intensity :=
    fadd (fmul energy_factor (Fin 0.6)) (fmul tempo_factor (Fin 0.4)) in
  np_clip intensity (Fin 0) (Fin 1).

Definition calculate_complexity (spectral_variance : pyfloat)
  (mfcc_variance : ndarray) : pyfloat :=
  let spectral_factor := py_min (fdiv spectral_variance (Fin 1000000)) (Fin 1.0) in
  let mfcc_factor := py_min (fdiv (np_mean mfcc_variance) (Fin 100)) (Fin 1.0) in
  let complexity :=
    fadd (fmul spectral_factor (Fin 0.5)) (fmul mfcc_factor (Fin 0.5)) in
  np_clip complexity (Fin 0) (Fin 1).

Definition determine_mood (tempo energy : pyfloat) (chroma_vals : list pyfloat)
  : result string :=
  key_index <- np_argmax chroma_vals ;;
  let is_major := is_major_index key_index in
  Ok (if fgt tempo (Fin 140) && fgt energy (Fin 0.15)
      then (if is_major then "energetic" else "intense")
      else if fgt tempo (Fin 100) && fgt energy (Fin 0.1)
      then (if is_major then "upbeat" else "dramatic")
      else if flt tempo (Fin 80)
      then (if is_major then "calm" else "melancholic")
      else (if is_major then "moderate" else "contemplative"))%string.

(** The [features] dictionary. *)
Record Features : Type := {
  duration : pyfloat;
  tempo : pyfloat;
  key : string;
  energy : pyfloat;
  energy_variance : pyfloat;
  spectral_centroid : pyfloat;
  spectral_centroid_variance : pyfloat;
  spectral_rolloff : pyfloat;
  zero_crossing_rate : pyfloat;
  mfcc_mean : list pyfloat;
  mfcc_variance : list pyfloat;
  valence : pyfloat;
  intensity : pyfloat;
  complexity : pyfloat;
  mood : string
}.

(** [keys[key_index]] *)
Definition keys_getitem (key_index : nat) : result string :=
  match nth_error keys key_index with
  | Some k => Ok k
  | None => Raise (IndexError "list index out of range")
  end.

(** Lines 48 to 73 of [analyze_audio]: everything after the librosa calls,
    inside the [try]. *)
Definition aggregate (p : Primitives) : result Features :=
  let chroma_vals := np_sum_axis1 (p_chroma p) in
  key_index <- np_argmax chroma_vals ;;
  estimated_key <- keys_getitem key_index ;;
  let rms := Arr1 (p_rms p) in
  let spectral_centroids := Arr1 (p_spectral_centroids p) in
  let mfccs := p_mfccs p in
  v <- calculate_valence chroma_vals (p_tempo p) (np_mean rms) ;;
  let i := calculate_intensity (np_mean rms) (p_tempo p) in
  let c := calculate_complexity (np_var spectral_centroids)
             (Scalar (np_var (Arr2 mfccs))) in
  m <- determine_mood (p_tempo p) (np_mean rms) chroma_vals ;;
  Ok {| duration := p_duration p;
        tempo := p_tempo p;
        key := estimated_key;
        energy := np_mean rms;
        energy_variance := np_var rms;
        spectral_centroid := np_mean spectral_centroids;
        spectral_centroid_variance := np_var spectral_centroids;
        spectral_rolloff := np_mean (Arr1 (p_spectral_rolloff p));
        zero_crossing_rate := np_mean (Arr1 (p_zero_crossing_rate p));
        mfcc_mean := np_mean_axis1 mfccs;
        mfcc_variance := np_var_axis1 mfccs;
        valence := v;
        intensity := i;
        complexity := c;
        mood := m |}.

(** The dictionary [analyze_audio] returns: [{'success': True, 'features':
    ...}] or [{'success': False, 'error': ...}]. *)
Inductive analysis_result : Type :=
| Analysed (features : Features)
| Failed (error : string).

(** [analyze_audio]: the librosa calls, then [aggregate]; any exception of
    either becomes the failure dictionary. *)
Definition analyze_audio (librosa : string -> result Primitives)
  (audio_path : string) : analysis_result :=
  match (p <- librosa audio_path ;; aggregate p) with
  | Ok features => Analysed features
  | Raise e => Failed (str_exn e)
  end.

End Analyzer.

(* ================================================================== *)
(** ** The library functions of urllib.parse that the validator calls *)
(* ================================================================== *)

(** [urlparse] and [parse_qs] follow CPython's [urllib/parse.py] (3.10
    series) on text URLs.  A character is a byte; bytes from 128 on stand for
    non-ASCII text and are carried along unchanged (the validator compares
    only with ASCII names). *)
Module Url.
Open Scope string_scope.
Open Scope res_scope.

Definition mem_ascii (c : ascii) (s : string) : bool :=
  existsb (Ascii.eqb c) (list_ascii_of_string s).

(** [s.partition(c)]: [Some (before, after)] at the first [c]. *)
Fixpoint partition (c : ascii) (s : string) : option (string * string) :=
  match s with
  | EmptyString => None
  | String a s' =>
      if Ascii.eqb a c then Some (EmptyString, s')
      else match partition c s' with
           | Some (h, t) => Some (String a h, t)
           | None => None
           end
  end.

(** [s.rpartition(c)]: [Some (before, after)] at the last [c]. *)
Fixpoint rpartition (c : ascii) (s : string) : option (string * string) :=
  match s with
  | EmptyString => None
  | String a s' =>
      match rpartition c s' with
      | Some (h, t) => Some (String a h, t)
      | None => if Ascii.eqb a c then Some (EmptyString, s') else None
      end
  end.

(** [s.split(c)] *)
Fixpoint split (c : ascii) (s : string) : list string :=
  match s with
  | EmptyString => [EmptyString]
  | String a s' =>
      if Ascii.eqb a c then EmptyString :: split c s'
      else match split c s' with
           | h :: t => String a h :: t
           | [] => [String a EmptyString]
           end
  end.

(** The longest prefix without a character satisfying [p], and the rest. *)
Fixpoint break_at (p : ascii -> bool) (s : string) : string * string :=
  match s with
  | EmptyString => (EmptyString, EmptyString)
  | String a s' =>
      if p a then (EmptyString, s)
      else let (h, t) := break_at p s' in (String a h, t)
  end.

Fixpoint map_string (f : ascii -> ascii) (s : string) : string :=
  match s with
  | EmptyString => EmptyString
  | String a s' => String (f a) (map_string f s')
  end.

Fixpoint filter_string (p : ascii -> bool) (s : string) : string :=
  match s with
  | EmptyString => EmptyString
  | String a s' => if p a then String a (filter_string p s') else filter_string p s'
  end.

Fixpoint forallb_string (p : ascii -> bool) (s : string) : bool :=
  match s with
  | EmptyString => true
  | String a s' => p a && forallb_string p s'
  end.

Definition is_upper (c : ascii) : bool :=
  let n := nat_of_ascii c in (65 <=? n)%nat && (n <=? 90)%nat.
Definition is_lower (c : ascii) : bool :=
  let n := nat_of_ascii c in (97 <=? n)%nat && (n <=? 122)%nat.
Definition is_digit (c : ascii) : bool :=
  let n := nat_of_ascii c in (48 <=? n)%nat && (n <=? 57)%nat.

Definition lower_ascii (c : ascii) : ascii :=
  if is_upper c then ascii_of_nat (nat_of_ascii c + 32) else c.

(** [s.lower()] *)
Definition lower (s : string) : string := map_string lower_ascii s.

(** [scheme_chars]: letters, digits and [+-.] *)
Definition scheme_char (c : ascii) : bool :=
  is_upper c || is_lower c || is_digit c || mem_ascii c "+-.".

(** [url.lstrip(_WHATWG_C0_CONTROL_OR_SPACE)] *)
Fixpoint lstrip_c0 (s : string) : string :=
  match s with
  | EmptyString => EmptyString
  | String a s' => if (nat_of_ascii a <=? 32)%nat then lstrip_c0 s' else s
  end.

(** Removal of [_UNSAFE_URL_BYTES_TO_REMOVE]: tab, carriage return, line feed. *)
Definition remove_unsafe (s : string) : string :=
  filter_string
    (fun c => negb (existsb (Nat.eqb (nat_of_ascii c)) [9; 10; 13]%nat)) s.

Record ParseResult : Type := {
  scheme : string;
  netloc : string;
  path : string;
  params : string;
  query : string;
  fragment : string
}.

(** [urlsplit(url)]: scheme, netloc, path, query, fragment. *)
Definition urlsplit (url0 : string)
  : result (string * string * string * string * string) :=
  let url := remove_unsafe (lstrip_c0 url0) in
  let (scheme, url) :=
    match partition ":" url with
    | Some (pre, post) =>
        if negb (String.eqb pre "") && forallb_string scheme_char pre
        then (lower pre, post)
        else ("", url)
    | None => ("", url)
    end in
  let (netloc, url) :=
    match url with
    | String "/" (String "/" rest) => break_at (fun c => mem_ascii c "/?#") rest
    | _ => ("", url)
    end in
  if (mem_ascii "[" netloc && negb (mem_ascii "]" netloc))
     || (mem_ascii "]" netloc && negb (mem_ascii "[" netloc))
  then Raise (ValueError "Invalid IPv6 URL")
  else
    let (url, fragment) :=
      match partition "#" url with
      | Some (u, f) => (u, f)
      | None => (url, "")
      end in
    let (url, query) :=
      match partition "?" url with
      | Some (u, q) => (u, q)
      | None => (url, "")
      end in
    Ok (scheme, netloc, url, query, fragment).

Definition uses_params : list string :=
  [""; "ftp"; "hdl"; "prospero"; "http"; "imap"; "https"; "shttp"; "rtsp";
   "rtspu"; "sip"; "sips"; "mms"; "sftp"; "tel"].

(** [_splitparams(url)], called when [';' in url]. *)
Definition splitparams (url : string) : string * string :=
  match rpartition "/" url with
  | Some (before, last) =>
      match partition ";" last with
      | Some (seg, ps) => (before ++ "/" ++ seg, ps)
      | None => (url, "")
      end
  | None =>
      match partition ";" url with
      | Some (seg, ps) => (seg, ps)
      | None => (url, "")
      end
  end.

Definition urlparse (url : string) : result ParseResult :=
  s <- urlsplit url ;;
  let '(scheme, netloc, url, query, fragment) := s in
  let (url, params) :=
    if existsb (String.eqb scheme) uses_params && mem_ascii ";" url
    then splitparams url
    else (url, "") in
  Ok {| scheme := scheme; netloc := netloc; path := url; params := params;
        query := query; fragment := fragment |}.

(** The [hostname] property: [None] when the netloc names no host. *)
Definition hostname (p : ParseResult) : option string :=
  let hostinfo :=
    match rpartition "@" (netloc p) with
    | Some (_, t) => t
    | None => netloc p
    end in
  let host :=
    match partition "[" hostinfo with
    | Some (_, bracketed) =>
        match partition "]" bracketed with
        | Some (h, _) => h
        | None => bracketed
        end
    | None =>
        match partition ":" hostinfo with
        | Some (h, _) => h
        | None => hostinfo
        end
    end in
  if String.eqb host "" then None
  else Some match partition "%" host with
            | Some (h, zone) => lower h ++ "%" ++ zone
            | None => lower host
            end.

Definition hex_value (c : ascii) : option nat :=
  let n := nat_of_ascii c in
  if is_digit c then Some (n - 48)%nat
  else if (65 <=? n)%nat && (n <=? 70)%nat then Some (n - 55)%nat
  else if (97 <=? n)%nat && (n <=? 102)%nat then Some (n - 87)%nat
  else None.

(** [unquote(s)]: every [%XY] with two hexadecimal digits becomes the byte
    it names; any other [%] stays. *)
Fixpoint unquote (s : string) : string :=
  match s with
  | EmptyString => EmptyString
  | String c s' =>
      if Ascii.eqb c "%" then
        match s' with
        | String h (String l rest) =>
            match hex_value h, hex_value l with
            | Some a, Some b => String (ascii_of_nat (16 * a + b)) (unquote rest)
            | _, _ => String c (unquote s')
            end
        | _ => String c (unquote s')
        end
      else String c (unquote s')
  end.

(** [s.replace('+', ' ')] *)
Definition plus_to_space (s : string) : string :=
  map_string (fun c => if Ascii.eqb c "+" then " "%char else c) s.

(** [parse_qsl(qs)] with the defaults: fields without [=] and fields with a
    blank value are dropped. *)
Definition parse_qsl (qs : string) : list (string * string) :=
  flat_map
    (fun name_value =>
       if String.eqb name_value "" then []
       else match partition "=" name_value with
            | None => []
            | Some (n, v) =>
                if String.eqb v "" then []
                else [(unquote (plus_to_space n), unquote (plus_to_space v))]
            end)
    (split "&" qs).

(** The dictionary of [parse_qs]: one entry per name, with its values in
    order. *)
Fixpoint dict_append (d : list (string * list string)) (name value : string)
  : list (string * list string) :=
  match d with
  | [] => [(name, [value])]
  | (n, vs) :: d' =>
      if String.eqb n name then (n, (vs ++ [value])%list) :: d'
      else (n, vs) :: dict_append d' name value
  end.

Definition parse_qs (qs : string) : list (string * list string) :=
  fold_left (fun d nv => dict_append d (fst nv) (snd nv)) (parse_qsl qs) [].

(** [name in d] *)
Definition dict_mem {V} (name : string) (d : list (string * V)) : bool :=
  existsb (fun kv => String.eqb (fst kv) name) d.

End Url.

(* ================================================================== *)
(** ** lambda/youtube-function/handler.py *)
(* ================================================================== *)

Module Handler.
Import Num Analyzer Url.
Open Scope string_scope.

(** *** Python values that travel as JSON *)

Inductive json : Type :=
| JNull
| JBool (b : bool)
| JInt (z : Z)
| JFloat (x : pyfloat)
| JStr (s : string)
| JArr (l : list json)
| JObj (fields : list (string * json)).

(** Truth value of an object ([if details:], [a or b]). *)
Definition truthy (v : json) : bool :=
  match v with
  | JNull => false
  | JBool b => b
  | JInt z => negb (Z.eqb z 0)
  | JFloat (Fin q) => negb (Qeq_bool q 0)
  | JFloat NaN => true
  | JStr s => negb (String.eqb s "")
  | JArr l => match l with [] => false | _ => true end
  | JObj f => match f with [] => false | _ => true end
  end.

(** [a or b] *)
Definition py_or (a b : json) : json := if truthy a then a else b.

Fixpoint assoc {V} (k : string) (d : list (string * V)) : option V :=
  match d with
  | [] => None
  | (k', v) :: d' => if String.eqb k' k then Some v else assoc k d'
  end.

(** [obj.get(k, default)]: only a dictionary has [get]. *)
Definition json_get (obj : json) (k : string) (default : json) : result json :=
  match obj with
  | JObj fields =>
      Ok match assoc k fields with Some v => v | None => default end
  | _ => Raise (AttributeError "object has no attribute 'get'")
  end.

(** [v > n] for an integer literal [n]: numbers compare (a boolean as 0 or
    1), anything else is a [TypeError]. *)
Definition json_gt_int (v : json) (n : Z) : result bool :=
  match v with
  | JInt z => Ok (Z.ltb n z)
  | JBool b => Ok (Z.ltb n (if b then 1 else 0))
  | JFloat x => Ok (fgt x (Fin (inject_Z n)))
  | _ => Raise (TypeError "'>' not supported between these instances")
  end.

Definition floats_json (l : list pyfloat) : json := JArr (map JFloat l).

(** The [features] dictionary as it is serialised. *)
Definition features_json (f : Features) : json :=
  JObj [("duration", JFloat (duration f));
        ("tempo", JFloat (tempo f));
        ("key", JStr (key f));
        ("energy", JFloat (energy f));
        ("energy_variance", JFloat (energy_variance f));
        ("spectral_centroid", JFloat (spectral_centroid f));
        ("spectral_centroid_variance", JFloat (spectral_centroid_variance f));
        ("spectral_rolloff", JFloat (spectral_rolloff f));
        ("zero_crossing_rate", JFloat (zero_crossing_rate f));
        ("mfcc_mean", floats_json (mfcc_mean f));
        ("mfcc_variance", floats_json (mfcc_variance f));
        ("valence", JFloat (valence f));
        ("intensity", JFloat (intensity f));
        ("complexity", JFloat (complexity f));
        ("mood", JStr (mood f))].

(** *** Responses *)

(** The dictionary a handler returns.  [body] is the object handed to
    [json.dumps]; its text form is not modelled. *)
Record Response : Type := {
  statusCode : Z;
  headers : list (string * string);
  body : json
}.

Definition json_headers : list (string * string) :=
  [("Content-Type", "application/json"); ("Access-Control-Allow-Origin", "*")].

Definition success_response (data : json) : Response :=
  {| statusCode := 200; headers := json_headers; body := data |}.

Definition error_response (status_code : Z) (message : string) (details : json)
  : Response :=
  let body := [("error", JStr message)] in
  let body := if truthy details then (body ++ [("details", details)])%list else body in
  {| statusCode := status_code; headers := json_headers; body := JObj body |}.

(** *** The world outside the process *)

(** What [subprocess.run(..., capture_output=True, text=True)] returns. *)
Record CompletedProcess : Type := {
  returncode : Z;
  stdout : string;
  stderr : string
}.

(** The external collaborators.  [run argv] is the outcome of
    [subprocess.run(argv, timeout=...)]: a completed process, or the
    exception it raises ([TimeoutExpired] when the wait is over). *)
Record Env : Type := {
  run : list string -> result CompletedProcess;
  json_loads : string -> result json;
  librosa : string -> result Primitives;
  os_getpid : Z;
  py_str : json -> string
}.

(** Objects a name of the module can be bound to. *)
Inductive pyobj : Type :=
| PyNone
| PyContext (request_id : string)
| PyModule
| PyFunction.

(** The names bound at the top level of [handler.py]: its imports and its
    functions. *)
Definition module_globals : list (string * pyobj) :=
  [("json", PyModule); ("subprocess", PyModule); ("os", PyModule);
   ("tempfile", PyModule); ("traceback", PyModule);
   ("urlparse", PyFunction); ("parse_qs", PyFunction);
   ("analyze_audio", PyFunction);
   ("lambda_handler", PyFunction);
   ("handle_youtube_info", PyFunction);
   ("handle_youtube_audio_with_analysis", PyFunction);
   ("is_valid_youtube_url", PyFunction);
   ("success_response", PyFunction);
   ("error_response", PyFunction)].

(** Reading a name that is neither a local of the function nor a builtin. *)
Definition load_global (name : string) : result pyobj :=
  match assoc name module_globals with
  | Some o => Ok o
  | None => Raise (NameError name)
  end.

Definition obj_truthy (o : pyobj) : bool :=
  match o with PyNone => false | _ => true end.

(** [o.request_id] *)
Definition get_request_id (o : pyobj) : result string :=
  match o with
  | PyContext r => Ok r
  | _ => Raise (AttributeError "object has no attribute 'request_id'")
  end.

(** *** Computations that call subprocesses

    A computation returns a value or raises, and in both cases leaves the
    list of the commands run so far, oldest first. *)

Definition trace : Type := list (list string).
Definition M (A : Type) : Type := trace -> result A * trace.

Definition ret {A} (a : A) : M A := fun t => (Ok a, t).
Definition raise {A} (e : exn) : M A := fun t => (Raise e, t).
Definition lift {A} (r : result A) : M A := fun t => (r, t).
Definition bind {A B} (c : M A) (k : A -> M B) : M B :=
  fun t =>
    match c t with
    | (Ok a, t') => k a t'
    | (Raise e, t') => (Raise e, t')
    end.

Declare Scope m_scope.
Delimit Scope m_scope with m.
Notation "x <- c ;; k" := (bind c (fun x => k))
  (at level 61, c at next level, right associativity) : m_scope.
Open Scope m_scope.

Definition subprocess_run (env : Env) (argv : list string) : M CompletedProcess :=
  fun t => (run env argv, (t ++ [argv])%list).

(** *** The validator *)

Definition youtube_hosts : list string :=
  ["www.youtube.com"; "youtube.com"; "m.youtube.com"].

(** [parsed.hostname.lower() if parsed.hostname else ''] *)
Definition lowered_hostname (parsed : ParseResult) : string :=
  match hostname parsed with
  | Some h => lower h
  | None => ""
  end.

Definition is_valid_youtube_url (url : string) : bool :=
  match urlparse url with
  | Raise _ => false
  | Ok parsed =>
      let hostname := lowered_hostname parsed in
      if existsb (String.eqb hostname) youtube_hosts
      then String.eqb (path parsed) "/watch" && dict_mem "v" (parse_qs (query parsed))
      else if String.eqb hostname "youtu.be"
      then (1 <? String.length (path parsed))%nat
      else false
  end.

(** [not url] for the value of [query_params.get('url')] *)
Definition url_missing (url : option string) : bool :=
  match url with
  | None => true
  | Some u => String.eqb u ""
  end.

Definition info_argv (url : string) : list string :=
  ["yt-dlp"; "--dump-json"; "--no-playlist"; url].

Definition download_argv (audio_file url : string) : list string :=
  ["yt-dlp"; "-f"; "bestaudio"; "--extract-audio"; "--audio-format"; "mp3";
   "--no-playlist"; "-o"; audio_file; url].

Definition duration_details (duration : json) : json :=
  JObj [("duration", duration); ("maxDuration", JInt 300)].

(** *** handle_youtube_info *)

(** The body of the [try]. *)
Definition info_body (env : Env) (query_params : list (string * string))
  : M Response :=
  let url := assoc "url" query_params in
  match url with
  | None => ret (error_response 400 "URL parameter is required" JNull)
  | Some url =>
      if String.eqb url "" then
        ret (error_response 400 "URL parameter is required" JNull)
      else if negb (is_valid_youtube_url url) then
        ret (error_response 400 "Invalid YouTube URL" JNull)
      else
        result <- subprocess_run env (info_argv url) ;;
        if negb (Z.eqb (returncode result) 0) then
          ret (error_response 500 "Failed to fetch video information"
                 (JStr (stderr result)))
        else
          video_info <- lift (json_loads env (stdout result)) ;;
          duration <- lift (json_get video_info "duration" (JInt 0)) ;;
          over <- lift (json_gt_int duration 300) ;;
          if (over : bool) then
            ret (error_response 400 "Video duration exceeds 5 minute limit"
                   (duration_details duration))
          else
            title <- lift (json_get video_info "title" (JStr "Unknown")) ;;
            thumbnail <- lift (json_get video_info "thumbnail" (JStr "")) ;;
            uploader <- lift (json_get video_info "uploader" JNull) ;;
            channel <- lift (json_get video_info "channel" (JStr "Unknown")) ;;
            webpage_url <- lift (json_get video_info "webpage_url" (JStr url)) ;;
            ret (success_response
                   (JObj [("title", title);
                          ("duration", duration);
                          ("thumbnail", thumbnail);
                          ("author", py_or uploader channel);
                          ("url", webpage_url)]))
  end.

(** The [except] clauses of [handle_youtube_info]. *)
Definition info_except (e : exn) : Response :=
  match e with
  | TimeoutExpired => error_response 504 "Request timeout" JNull
  | JSONDecodeError _ =>
      error_response 500 "Failed to parse video information" JNull
  | _ =>
      error_response 500 ("Failed to fetch video information: " ++ str_exn e) JNull
  end.

Definition handle_youtube_info (env : Env) (query_params : list (string * string))
  (t : trace) : Response * trace :=
  match info_body env query_params t with
  | (Ok r, t') => (r, t')
  | (Raise e, t') => (info_except e, t')
  end.

(** *** handle_youtube_audio_with_analysis *)

(** [analysis_result.get('features', {})] after the success test. *)
Definition analysis_features (a : analysis_result) : json :=
  match a with
  | Analysed f => features_json f
  | Failed _ => JObj []
  end.

(** The body of the [try].  The [finally] clause only removes the temporary
    file and swallows its own errors; it runs no subprocess and leaves the
    response as it is, so it has no counterpart here. *)
Definition audio_body (env : Env) (query_params : list (string * string))
  : M Response :=
  let url := assoc "url" query_params in
  match url with
  | None => ret (error_response 400 "URL parameter is required" JNull)
  | Some url =>
      if String.eqb url "" then
        ret (error_response 400 "URL parameter is required" JNull)
      else if negb (is_valid_youtube_url url) then
        ret (error_response 400 "Invalid YouTube URL" JNull)
      else
        info_result <- subprocess_run env (info_argv url) ;;
        if negb (Z.eqb (returncode info_result) 0) then
          ret (error_response 500 "Failed to get video information" JNull)
        else
          video_info <- lift (json_loads env (stdout info_result)) ;;
          duration <- lift (json_get video_info "duration" (JInt 0)) ;;
          over <- lift (json_gt_int duration 300) ;;
          if (over : bool) then
            ret (error_response 400 "Video duration exceeds 5 minute limit"
                   (duration_details duration))
          else
            (* request_id = context.request_id if context else str(os.getpid()) *)
            context <- lift (load_global "context") ;;
            request_id <- lift (if obj_truthy context
                                then get_request_id context
                                else Ok (py_str env (JInt (os_getpid env)))) ;;
            let audio_file := "/tmp/audio_" ++ request_id ++ ".mp3" in
            download_result <- subprocess_run env (download_argv audio_file url) ;;
            if negb (Z.eqb (returncode download_result) 0) then
              ret (error_response 500 "Failed to download audio"
                     (JObj [("stderr",
                             JStr (substring 0 500 (stderr download_result)))]))
            else
              let analysis_result := analyze_audio (librosa env) audio_file in
              match analysis_result with
              | Failed error_msg =>
                  ret (error_response 500 "Audio analysis failed" (JStr error_msg))
              | Analysed _ =>
                  let features := analysis_features analysis_result in
                  title <- lift (json_get video_info "title" JNull) ;;
                  vduration <- lift (json_get video_info "duration" JNull) ;;
                  author <- lift (json_get video_info "uploader" JNull) ;;
                  thumbnail <- lift (json_get video_info "thumbnail" JNull) ;;
                  id <- lift (json_get video_info "id" JNull) ;;
                  ret (success_response
                         (JObj [("success", JBool true);
                                ("videoInfo",
                                 JObj [("title", title);
                                       ("duration", vduration);
                                       ("author", author);
                                       ("thumbnail",
                                        py_or thumbnail
                                          (JStr ("https://i3.ytimg.com/vi/"
                                                 ++ py_str env id
                                                 ++ "/maxresdefault.jpg")))]);
                                ("analysis", features)]))
              end
  end.

(** The [except] clauses of [handle_youtube_audio_with_analysis]. *)
Definition audio_except (e : exn) : Response :=
  match e with
  | TimeoutExpired => error_response 504 "Request timeout" JNull
  | _ => error_response 500 ("Failed to process: " ++ str_exn e) JNull
  end.

Definition handle_youtube_audio_with_analysis (env : Env)
  (query_params : list (string * string)) (t : trace) : Response * trace :=
  match audio_body env query_params t with
  | (Ok r, t') => (r, t')
  | (Raise e, t') => (audio_except e, t')
  end.

(** *** lambda_handler *)

(** The event: [path] and [queryStringParameters], each possibly absent. *)
Record Event : Type := {
  ev_path : option string;
  ev_queryStringParameters : option (list (string * string))
}.

(** [s.endswith(suffix)] *)
Definition endswith (s suffix : string) : bool :=
  let n := String.length s in
  let k := String.length suffix in
  (k <=? n)%nat && String.eqb (substring (n - k) k s) suffix.

Definition lambda_handler (env : Env) (event : Event) (t : trace)
  : Response * trace :=
  let path := match ev_path event with Some p => p | None => "" end in
  (* event.get('queryStringParameters') or {} *)
  let query_params :=
    match ev_queryStringParameters event with
    | Some q => q
    | None => []
    end in
  if endswith path "/info" then handle_youtube_info env query_params t
  else if endswith path "/audio-with-analysis"
  then handle_youtube_audio_with_analysis env query_params t
  else (error_response 404 "Endpoint not found" JNull, t).

End Handler.

(* ================================================================== *)
(** ** The specification's formulas, as it words them *)
(* ================================================================== *)

Module Spec.
Import Num Analyzer.
Open Scope Q_scope.

(** The eight mood labels. *)
Definition mood_labels : list string :=
  ["energetic"; "intense"; "upbeat"; "dramatic"; "calm"; "melancholic";
   "moderate"; "contemplative"]%string.

(** Complexity as the specification states it, for a centroid variance [v]
    and an MFCC matrix [M]: [m] is the mean of the per-row variances of [M],
    and the score is [clamp(0.5*min(v/1000000, 1) + 0.5*min(m/100, 1), 0, 1)]. *)
Definition complexity_spec (v : pyfloat) (M : list (list pyfloat)) : pyfloat :=
  let m := np_mean (Arr1 (np_var_axis1 M)) in
  np_clip
    (fadd (fmul (Fin 0.5) (py_min (fdiv v (Fin 1000000)) (Fin 1)))
          (fmul (Fin 0.5) (py_min (fdiv m (Fin 100)) (Fin 1))))
    (Fin 0) (Fin 1).

(** The sum of one row of rationals (the time axis of one pitch class). *)
Definition Qsum (l : list Q) : Q := fold_right Qplus 0 l.

End Spec.

(* ================================================================== *)
(** ** Sample inputs *)
(* ================================================================== *)

Module Samples.
Import Num Analyzer Url Handler.
Open Scope Q_scope.

(** A chroma energy vector whose maximum is at index 0 (C). *)
Definition chroma_vals_C : list pyfloat :=
  map Fin [9; 1; 2; 3; 4; 5; 6; 7; 8; 9; 2; 1].

(** A clip with no frame at all: every per-frame sequence is empty, the
    matrices have their 13 and 12 rows of length 0. *)
Definition empty_clip : Primitives :=
  {| p_duration := Fin 0;
     p_tempo := Fin 0;
     p_spectral_centroids := [];
     p_spectral_rolloff := [];
     p_zero_crossing_rate := [];
     p_mfccs := repeat [] 13;
     p_chroma := repeat [] 12;
     p_rms := [] |}.

(** A two-frame clip whose MFCC rows are constant in time: row [i] is
    [[i; i]], so every per-row variance is 0. *)
Definition constant_rows_mfccs : list (list pyfloat) :=
  map (fun i => [Fin (inject_Z i); Fin (inject_Z i)])
      [0; 1; 2; 3; 4; 5; 6; 7; 8; 9; 10; 11; 12]%Z.

Definition constant_rows_clip : Primitives :=
  {| p_duration := Fin 1;
     p_tempo := Fin 120;
     p_spectral_centroids := [Fin 1000; Fin 1000];
     p_spectral_rolloff := [Fin 2000; Fin 2000];
     p_zero_crossing_rate := [Fin 0.1; Fin 0.1];
     p_mfccs := constant_rows_mfccs;
     p_chroma := map (fun x => [x; x]) chroma_vals_C;
     p_rms := [Fin 0.2; Fin 0.2] |}.

(** Twelve rows of equal energy: the tie goes to index 0, the key is C. *)
Definition tied_clip : Primitives :=
  {| p_duration := Fin 1; p_tempo := Fin 90;
     p_spectral_centroids := [Fin 1; Fin 1];
     p_spectral_rolloff := [Fin 1; Fin 1];
     p_zero_crossing_rate := [Fin 1; Fin 1];
     p_mfccs := repeat [Fin 1; Fin 1] 13;
     p_chroma := map (map Fin) (repeat [1; 1] 12);
     p_rms := [Fin 1; Fin 1] |}.

Definition sample_url : string := "https://www.youtube.com/watch?v=abc123".

(** The text yt-dlp prints for a video of [d] seconds stands for itself:
    [json_loads] of the sample world maps three fixed outputs to their
    dictionaries. *)
Definition sample_info (d : Z) : json :=
  JObj [("id", JStr "abc123"); ("title", JStr "A song");
        ("duration", JInt d); ("uploader", JStr "Someone");
        ("thumbnail", JStr "https://i.ytimg.com/vi/abc123/hq.jpg")]%string.

(** A world where everything outside the process works: the metadata call
    prints [meta], the download succeeds, librosa returns the two-frame
    clip. *)
Definition sample_env (meta : string) : Env :=
  {| run := fun argv =>
       Ok (if list_eq_dec string_dec argv (info_argv sample_url)
           then {| returncode := 0; stdout := meta; stderr := "" |}
           else {| returncode := 0; stdout := ""; stderr := "" |});
     json_loads := fun s =>
       if String.eqb s "d200" then Ok (sample_info 200)
       else if String.eqb s "d300" then Ok (sample_info 300)
       else if String.eqb s "d301" then Ok (sample_info 301)
       else Raise (JSONDecodeError "Expecting value");
     librosa := fun _ => Ok constant_rows_clip;
     os_getpid := 4242;
     py_str := fun v => match v with JStr s => s | _ => "4242"%string end |}.

End Samples.

(* ================================================================== *)
(** ** The command form of audio_analyzer.py *)
(* ================================================================== *)

Module Cli.
Import Num Analyzer Handler.
Open Scope string_scope.

(** The dictionary of [analyze_audio] as [json.dumps] receives it. *)
Definition analysis_json (a : analysis_result) : json :=
  match a with
  | Analysed f => JObj [("success", JBool true); ("features", features_json f)]
  | Failed e => JObj [("success", JBool false); ("error", JStr e)]
  end.

Definition usage_error : json :=
  JObj [("success", JBool false);
        ("error", JStr "Usage: python audio_analyzer.py <audio_file_path>")].

(** The [__main__] block: [sys.argv] in, the objects printed (one per line)
    and the exit status out.  [sys.exit(1)] ends the script after the usage
    line; otherwise the script runs to its end and exits with 0. *)
Definition main (librosa : string -> result Primitives) (argv : list string)
  : list json * Z :=
  if negb (Nat.eqb (List.length argv) 2) then ([usage_error], 1%Z)
  else
    let audio_path := nth 1 argv "" in
    let result := analyze_audio librosa audio_path in
    ([analysis_json result], 0%Z).

End Cli.

(* ================================================================== *)
(** ** Vocabulary of the further properties *)
(* ================================================================== *)

Module Vocabulary.
Import Num Analyzer Url Handler.
Open Scope string_scope.

(** The four labels [determine_mood] gives to a major key, and the seven
    keys without a sharp (the comment of [major_keys]: C, D, E, F, G, A, B). *)
Definition major_moods : list string := ["energetic"; "upbeat"; "calm"; "moderate"].
Definition slow_moods : list string :=
  ["calm"; "melancholic"; "moderate"; "contemplative"].
Definition natural_keys : list string := ["C"; "D"; "E"; "F"; "G"; "A"; "B"].

(** Characters of a video identifier: letters, digits, [-] and [_]. *)
Definition id_char (c : ascii) : bool :=
  is_upper c || is_lower c || is_digit c || mem_ascii c "-_".

(** [clamp(q, 0, 1)] on rationals. *)
Definition clamp01 (q : Q) : Q := Qmin (Qmax q 0) 1.

(** The value of key [k] in a dictionary, [default] when it is absent. *)
Definition field_or (fields : list (string * json)) (k : string) (default : json)
  : json :=
  match assoc k fields with
  | Some v => v
  | None => default
  end.

(** The status codes the router can answer with. *)
Definition router_statuses : list Z := [200; 400; 404; 500; 504]%Z.

(** A JSON value that [>] cannot compare with an integer. *)
Definition not_a_number (v : json) : bool :=
  match v with
  | JInt _ | JFloat _ | JBool _ => false
  | _ => true
  end.

(** The three events of [test-handler.py]. *)
Definition info_event : Event :=
  {| ev_path := Some "/api/youtube/info";
     ev_queryStringParameters :=
       Some [("url", "https://www.youtube.com/watch?v=dQw4w9WgXcQ")] |}.
Definition invalid_event : Event :=
  {| ev_path := Some "/api/youtube/info";
     ev_queryStringParameters := Some [("url", "https://example.com/video")] |}.
Definition missing_event : Event :=
  {| ev_path := Some "/api/youtube/info";
     ev_queryStringParameters := Some [] |}.

(** Worlds for the examples: the metadata lookup ends as [outcome], and its
    output, when there is one, parses as [parsed]. *)
Definition world (outcome : result CompletedProcess) (parsed : result json) : Env :=
  {| run := fun _ => outcome;
     json_loads := fun _ => parsed;
     librosa := fun _ => Raise (OtherError "no such file");
     os_getpid := 1;
     py_str := fun _ => "1" |}.

Definition completed (code : Z) (err : string) : result CompletedProcess :=
  Ok {| returncode := code; stdout := "{}"; stderr := err |}.

End Vocabulary.

(* ================================================================== *)
(** ** Facts about the numbers *)
(* ================================================================== *)

Import Num Analyzer Url Handler Spec Samples Cli Vocabulary.

Section NumFacts.
Open Scope Q_scope.

Lemma Qltb_lt (x y : Q) : Qltb x y = true <-> x < y.
Proof.
  unfold Qltb. rewrite negb_true_iff. split; intro H.
  - apply Qnot_le_lt. intro Hle. apply Qle_bool_iff in Hle. congruence.
  - destruct (Qle_bool y x) eqn:E; [|reflexivity].
    apply Qle_bool_iff in E. exfalso. apply (Qlt_not_le _ _ H E).
Qed.

Lemma Qltb_ge (x y : Q) : Qltb x y = false <-> y <= x.
Proof.
  unfold Qltb. rewrite negb_false_iff. apply Qle_bool_iff.
Qed.

Lemma Qle_bool_false (x y : Q) : Qle_bool x y = false <-> y < x.
Proof.
  rewrite <- Qltb_lt. unfold Qltb. rewrite negb_true_iff. reflexivity.
Qed.

Lemma fgt_fin (x c : Q) : fgt (Fin x) (Fin c) = true <-> c < x.
Proof. unfold fgt, flt. apply Qltb_lt. Qed.

Lemma flt_fin (x c : Q) : flt (Fin x) (Fin c) = true <-> x < c.
Proof. unfold flt. apply Qltb_lt. Qed.

Lemma finite_inv (x : pyfloat) : is_finite x = true -> exists q, x = Fin q.
Proof. destruct x; [eauto | discriminate]. Qed.

Lemma finite_fadd (a b : pyfloat) :
  is_finite a = true -> is_finite b = true -> is_finite (fadd a b) = true.
Proof. destruct a, b; simpl; congruence. Qed.

Lemma finite_fsub (a b : pyfloat) :
  is_finite a = true -> is_finite b = true -> is_finite (fsub a b) = true.
Proof. destruct a, b; simpl; congruence. Qed.

Lemma finite_fmul (a b : pyfloat) :
  is_finite a = true -> is_finite b = true -> is_finite (fmul a b) = true.
Proof. destruct a, b; simpl; congruence. Qed.

Lemma finite_fdiv (a : pyfloat) (c : Q) :
  is_finite a = true -> Qeq_bool c 0 = false -> is_finite (fdiv a (Fin c)) = true.
Proof. destruct a; simpl; intros H Hc; [rewrite Hc; reflexivity | discriminate]. Qed.

Lemma finite_py_min (a b : pyfloat) :
  is_finite a = true -> is_finite b = true -> is_finite (py_min a b) = true.
Proof. unfold py_min. destruct (flt b a); auto. Qed.

Lemma py_min_fin (x y : Q) :
  exists q, py_min (Fin x) (Fin y) = Fin q /\ q == Qmin x y.
Proof.
  unfold py_min, flt. destruct (Qltb y x) eqn:E.
  - exists y. split; [reflexivity|]. apply Qltb_lt in E.
    symmetry. apply Q.min_r. apply Qlt_le_weak, E.
  - exists x. split; [reflexivity|]. apply Qltb_ge in E.
    symmetry. apply Q.min_l, E.
Qed.

(** Whatever finite value reaches [np.clip(., 0, 1)] leaves it in [0, 1]. *)
Lemma clip_unit_range (x : pyfloat) :
  is_finite x = true -> in_range 0 1 (np_clip x (Fin 0) (Fin 1)).
Proof.
  destruct x as [q|]; [intros _ | discriminate]. simpl. split.
  - apply Q.min_glb; [apply Q.le_max_r | discriminate].
  - apply Q.le_min_r.
Qed.

Lemma clip_nan (lo hi : pyfloat) : np_clip NaN lo hi = NaN.
Proof. reflexivity. Qed.

Lemma fold_fadd_finite (l : list pyfloat) :
  Forall (fun x => is_finite x = true) l ->
  forall a, is_finite (fold_left fadd l (Fin a)) = true.
Proof.
  induction 1 as [|x l Hx _ IH]; intro a; simpl; [reflexivity|].
  destruct (finite_inv _ Hx) as [q ->]. simpl. apply IH.
Qed.

Lemma sum_list_finite (l : list pyfloat) :
  Forall (fun x => is_finite x = true) l -> is_finite (sum_list l) = true.
Proof. intro H. apply fold_fadd_finite, H. Qed.

Lemma length_nonzero (n : nat) :
  Qeq_bool (inject_Z (Z.of_nat (S n))) 0 = false.
Proof.
  destruct (Qeq_bool _ _) eqn:E; [|reflexivity].
  apply Qeq_bool_iff in E. unfold Qeq in E. simpl in E. lia.
Qed.

Lemma mean_list_finite (l : list pyfloat) :
  l <> [] -> Forall (fun x => is_finite x = true) l ->
  is_finite (mean_list l) = true.
Proof.
  intros Hne Hl. unfold mean_list, of_nat.
  destruct l as [|x l']; [congruence|].
  apply finite_fdiv; [apply sum_list_finite, Hl | apply length_nonzero].
Qed.

Lemma mean_list_nil : mean_list [] = NaN.
Proof. reflexivity. Qed.

Lemma var_list_nil : var_list [] = NaN.
Proof. reflexivity. Qed.

Lemma py_min_nan (b : pyfloat) : py_min NaN b = NaN.
Proof. unfold py_min, flt. destruct b; reflexivity. Qed.

Lemma fmul_nan_l (b : pyfloat) : fmul NaN b = NaN.
Proof. reflexivity. Qed.

Lemma fdiv_nan_l (b : pyfloat) : fdiv NaN b = NaN.
Proof. reflexivity. Qed.

Lemma fadd_nan_r (a : pyfloat) : fadd a NaN = NaN.
Proof. destruct a; reflexivity. Qed.

Lemma fadd_nan_l (b : pyfloat) : fadd NaN b = NaN.
Proof. reflexivity. Qed.

End NumFacts.

(* ================================================================== *)
(** ** The derived scores and the mood *)
(* ================================================================== *)

Section Scores.
Open Scope Q_scope.

Lemma argmax_nonempty (l : list pyfloat) :
  l <> [] -> exists i, np_argmax l = Ok i.
Proof. destruct l; [congruence | intros _; simpl; eauto]. Qed.

Lemma valence_finite_range (chroma_vals : list pyfloat) (tempo energy : Q) :
  chroma_vals <> [] ->
  exists v, calculate_valence chroma_vals (Fin tempo) (Fin energy) = Ok v
            /\ in_range 0 1 v.
Proof.
  intro Hne. destruct (argmax_nonempty Hne) as [i Hi].
  unfold calculate_valence. rewrite Hi. simpl rbind.
  eexists; split; [reflexivity|].
  apply clip_unit_range.
  destruct (is_major_index i);
    repeat (first [apply finite_fadd | apply finite_fmul | apply finite_py_min
                  | apply finite_fdiv | reflexivity]).
Qed.

Lemma intensity_finite_range (energy tempo : Q) :
  in_range 0 1 (calculate_intensity (Fin energy) (Fin tempo)).
Proof.
  unfold calculate_intensity. apply clip_unit_range.
  repeat (first [apply finite_fadd | apply finite_fmul | apply finite_py_min
                | apply finite_fdiv | reflexivity]).
Qed.

Lemma complexity_finite_range (spectral_variance : Q) (mfcc_variance : ndarray) :
  ravel mfcc_variance <> [] ->
  Forall (fun x => is_finite x = true) (ravel mfcc_variance) ->
  in_range 0 1 (calculate_complexity (Fin spectral_variance) mfcc_variance).
Proof.
  intros Hne Hfin. unfold calculate_complexity, np_mean. apply clip_unit_range.
  pose proof (mean_list_finite Hne Hfin) as Hm.
  repeat (first [exact Hm | apply finite_fadd | apply finite_fmul
                | apply finite_py_min | apply finite_fdiv | reflexivity]).
Qed.

(** C6.  Range invariant: for finite (non-NaN) tempo, mean RMS, centroid
    variance and MFCC variances, and any non-empty chroma energy vector, the
    three derived scores valence, intensity and complexity are finite and lie
    in the closed interval [0, 1]; all-zero inputs are included. *)
Theorem scores_in_unit_interval :
  forall (tempo energy spectral_variance : Q) (chroma_vals : list pyfloat)
         (mfcc_variance : ndarray),
    chroma_vals <> [] ->
    ravel mfcc_variance <> [] ->
    Forall (fun x => is_finite x = true) (ravel mfcc_variance) ->
    (exists v, calculate_valence chroma_vals (Fin tempo) (Fin energy) = Ok v
               /\ in_range 0 1 v)
    /\ in_range 0 1 (calculate_intensity (Fin energy) (Fin tempo))
    /\ in_range 0 1 (calculate_complexity (Fin spectral_variance) mfcc_variance).
Proof.
  intros tempo energy sv chroma_vals mv Hc Hne Hfin. split; [|split].
  - apply valence_finite_range, Hc.
  - apply intensity_finite_range.
  - apply complexity_finite_range; assumption.
Qed.

Lemma scores_in_unit_interval_all_zero :
  repeat (Fin 0) 12 <> []
  /\ ravel (Scalar (Fin 0)) <> []
  /\ Forall (fun x => is_finite x = true) (ravel (Scalar (Fin 0)))
  /\ (exists v, calculate_valence (repeat (Fin 0) 12) (Fin 0) (Fin 0) = Ok v
                /\ in_range 0 1 v)
  /\ in_range 0 1 (calculate_intensity (Fin 0) (Fin 0))
  /\ in_range 0 1 (calculate_complexity (Fin 0) (Scalar (Fin 0))).
Proof.
  assert (H1 : repeat (Fin 0) 12 <> []) by (simpl; discriminate).
  assert (H2 : ravel (Scalar (Fin 0)) <> []) by (simpl; discriminate).
  assert (H3 : Forall (fun x => is_finite x = true) (ravel (Scalar (Fin 0))))
    by (simpl; repeat constructor).
  split; [exact H1|]. split; [exact H2|]. split; [exact H3|].
  exact (scores_in_unit_interval 0 0 0 (Scalar (Fin 0)) H1 H2 H3).
Defined.

End Scores.

Section Mood.
Open Scope Q_scope.
Open Scope string_scope.

(** Case analysis on a comparison, keeping what it says about the numbers. *)
Ltac decide_by H :=
  match type of H with
  | (?b = true <-> ?P) =>
      destruct b;
      [ assert P by (apply H; reflexivity)
      | assert (~ P) by (let X := fresh in intro X; apply H in X; discriminate) ];
      clear H
  end.

(** C5.  Mood rule: for every finite tempo and mean RMS and every chroma
    vector whose argmax classifies the key as major or minor, [determine_mood]
    returns one label, it is one of the eight, and it is chosen by the rules in
    their order: rule 1 (tempo > 140 and rms > 0.15) wins whenever it holds,
    also when rule 2 holds too; rule 2 (tempo > 100 and rms > 0.1) applies only
    when rule 1 fails; rule 3 (tempo < 80) only when rules 1 and 2 fail; the
    default otherwise. *)
Theorem mood_priority_rules :
  forall (tempo energy : Q) (chroma_vals : list pyfloat) (key_index : nat),
    np_argmax chroma_vals = Ok key_index ->
    let major := is_major_index key_index in
    let rule1 := 140 < tempo /\ 0.15 < energy in
    let rule2 := 100 < tempo /\ 0.1 < energy in
    let rule3 := tempo < 80 in
    exists m,
      determine_mood (Fin tempo) (Fin energy) chroma_vals = Ok m
      /\ In m mood_labels
      /\ (rule1 -> m = if major then "energetic" else "intense")
      /\ (~ rule1 -> rule2 -> m = if major then "upbeat" else "dramatic")
      /\ (~ rule1 -> ~ rule2 -> rule3 ->
          m = if major then "calm" else "melancholic")
      /\ (~ rule1 -> ~ rule2 -> ~ rule3 ->
          m = if major then "moderate" else "contemplative").
Proof.
  intros tempo energy chroma_vals key_index Hk major rule1 rule2 rule3.
  unfold determine_mood. rewrite Hk. simpl rbind. fold major.
  pose proof (fgt_fin tempo 140) as T1.
  pose proof (fgt_fin energy 0.15) as E1.
  pose proof (fgt_fin tempo 100) as T2.
  pose proof (fgt_fin energy 0.1) as E2.
  pose proof (flt_fin tempo 80) as T3.
  subst rule1 rule2 rule3.
  eexists; split; [reflexivity|].
  unfold fgt, flt in *.
  decide_by T1; decide_by E1; decide_by T2; decide_by E2; decide_by T3;
    destruct major; simpl;
    (split; [unfold mood_labels; simpl; auto 10|]);
    repeat split; intros; try reflexivity; tauto.
Qed.

Lemma mood_priority_rules_overlap :
  np_argmax chroma_vals_C = Ok 0%nat
  /\ (100 < 150 /\ 0.1 < 0.2)
  /\ determine_mood (Fin 150) (Fin 0.2) chroma_vals_C = Ok "energetic".
Proof.
  assert (Hk : np_argmax chroma_vals_C = Ok 0%nat) by reflexivity.
  split; [exact Hk|]. split; [split; reflexivity|].
  destruct (mood_priority_rules 150 0.2 chroma_vals_C Hk)
    as [m [Hm [_ [H1 _]]]].
  rewrite Hm. f_equal. apply H1. split; reflexivity.
Defined.

(** C4.  End-to-end scenario: with tempo 150, mean RMS 0.2 and a chroma
    vector whose maximum is at index 0 (C, a major key), the mood is
    "energetic", the intensity is
    [0.6*min(0.2*10, 1) + 0.4*min(150/180, 1) = 14/15 = 0.9333...] and the
    valence is [0.4 + 0.3*(150/180) + 0.3*min(0.2*10, 1) = 0.95]. *)
Theorem end_to_end_scenario :
  forall chroma_vals : list pyfloat,
    np_argmax chroma_vals = Ok 0%nat ->
    determine_mood (Fin 150) (Fin 0.2) chroma_vals = Ok "energetic"
    /\ feq (calculate_intensity (Fin 0.2) (Fin 150))
           (Fin (0.6 * Qmin (0.2 * 10) 1 + 0.4 * Qmin (150 / 180) 1))
    /\ 0.6 * Qmin (0.2 * 10) 1 + 0.4 * Qmin (150 / 180) 1 == 14 # 15
    /\ 0.9333 < 14 # 15 < 0.9334
    /\ exists v,
         calculate_valence chroma_vals (Fin 150) (Fin 0.2) = Ok v
         /\ feq v (Fin (0.4 + 0.3 * (150 / 180) + 0.3 * Qmin (0.2 * 10) 1))
         /\ feq v (Fin 0.95).
Proof.
  intros chroma_vals Hk.
  unfold determine_mood, calculate_valence. rewrite Hk. simpl rbind.
  split; [reflexivity|].
  split; [vm_compute; reflexivity|].
  split; [vm_compute; reflexivity|].
  split; [split; reflexivity|].
  eexists. split; [reflexivity|].
  split; vm_compute; reflexivity.
Qed.

Lemma end_to_end_scenario_witness :
  np_argmax chroma_vals_C = Ok 0%nat
  /\ determine_mood (Fin 150) (Fin 0.2) chroma_vals_C = Ok "energetic"
  /\ exists v,
       calculate_valence chroma_vals_C (Fin 150) (Fin 0.2) = Ok v
       /\ feq v (Fin 0.95).
Proof.
  assert (Hk : np_argmax chroma_vals_C = Ok 0%nat) by reflexivity.
  split; [exact Hk|].
  destruct (end_to_end_scenario chroma_vals_C Hk)
    as [Hm [_ [_ [_ [v [Hv [_ Hv']]]]]]].
  split; [exact Hm|]. exists v. split; assumption.
Defined.

End Mood.

Section Complexity.
Open Scope Q_scope.

(** C2.  The complexity that [analyze_audio] reports is not the formula with
    the mean of the 13 per-row MFCC variances: on the two-frame clip whose
    MFCC row [i] is constantly [i], every per-row variance is 0 and the
    formula gives 0, while the code passes the variance of the whole flattened
    matrix (14) and reports 0.07. *)
Theorem complexity_of_constant_rows :
  exists f,
    aggregate constant_rows_clip = Ok f
    /\ feq (complexity f) (Fin 0.07)
    /\ feq (np_var (Arr2 constant_rows_mfccs)) (Fin 14)
    /\ Forall (fun x => feq x (Fin 0)) (np_var_axis1 constant_rows_mfccs)
    /\ feq (complexity_spec
              (np_var (Arr1 (p_spectral_centroids constant_rows_clip)))
              (p_mfccs constant_rows_clip))
           (Fin 0)
    /\ ~ feq (complexity f)
             (complexity_spec
                (np_var (Arr1 (p_spectral_centroids constant_rows_clip)))
                (p_mfccs constant_rows_clip)).
Proof.
  eexists. split; [vm_compute; reflexivity|].
  split; [vm_compute; reflexivity|].
  split; [vm_compute; reflexivity|].
  split; [repeat constructor|].
  split; [vm_compute; reflexivity|].
  vm_compute. discriminate.
Qed.

End Complexity.

(* ================================================================== *)
(** ** Key estimation *)
(* ================================================================== *)

Section KeyEstimation.
Open Scope Q_scope.

(** The scan of [np.argmax] never leaves the vector, NaN or not. *)
Lemma argmax_loop_bound (l : list pyfloat) :
  forall (i : nat) (mp : pyfloat) (mi : nat),
    (mi < i)%nat -> (argmax_loop l i mp mi < i + List.length l)%nat.
Proof.
  induction l as [|x l IH]; intros i mp mi Hmi; simpl.
  - lia.
  - destruct (negb (fle x mp)).
    + destruct (is_finite x).
      * specialize (IH (S i) x i). lia.
      * lia.
    + specialize (IH (S i) mp mi). lia.
Qed.

Lemma argmax_bound (l : list pyfloat) (i : nat) :
  np_argmax l = Ok i -> (i < List.length l)%nat.
Proof.
  destruct l as [|x l]; simpl; [discriminate|].
  intro H. injection H as <-.
  destruct (is_finite x); [|lia].
  pose proof (@argmax_loop_bound l 1 x 0%nat). lia.
Qed.

(** The invariant of the scan on finite values: [pre] is the part already
    seen, [mp] its maximum, [mi] the first place where it occurs. *)
Lemma argmax_loop_spec (l : list Q) :
  forall (pre : list Q) (mp : Q) (mi : nat),
    (mi < List.length pre)%nat ->
    nth mi pre 0 == mp ->
    (forall j, (j < List.length pre)%nat -> nth j pre 0 <= mp) ->
    (forall j, (j < mi)%nat -> nth j pre 0 < mp) ->
    let r := argmax_loop (map Fin l) (List.length pre) (Fin mp) mi in
    (r < List.length (pre ++ l))%nat
    /\ (forall j, (j < List.length (pre ++ l))%nat ->
                  nth j (pre ++ l) 0 <= nth r (pre ++ l) 0)
    /\ (forall j, (j < r)%nat -> nth j (pre ++ l) 0 < nth r (pre ++ l) 0).
Proof.
  induction l as [|x l IH]; intros pre mp mi Hmi Hmp Hall Hbefore; simpl.
  - rewrite app_nil_r. repeat split.
    + exact Hmi.
    + intros j Hj. rewrite Hmp. apply Hall, Hj.
    + intros j Hj. rewrite Hmp. apply Hbefore, Hj.
  - assert (Hlen : List.length (pre ++ [x]) = S (List.length pre))
      by (rewrite length_app; simpl; lia).
    assert (Hx : nth (List.length pre) (pre ++ [x]) 0 = x)
      by (rewrite app_nth2, Nat.sub_diag; [reflexivity | lia]).
    assert (Hold : forall j, (j < List.length pre)%nat ->
                             nth j (pre ++ [x]) 0 = nth j pre 0)
      by (intros j Hj; apply app_nth1, Hj).
    replace (pre ++ x :: l)%list with ((pre ++ [x]) ++ l)%list
      by (rewrite <- app_assoc; reflexivity).
    destruct (Qle_bool x mp) eqn:E; simpl.
    + apply Qle_bool_iff in E.
      rewrite <- Hlen. apply IH.
      * lia.
      * rewrite Hold by exact Hmi. exact Hmp.
      * intros j Hj. rewrite Hlen in Hj.
        destruct (Nat.eq_dec j (List.length pre)) as [->|Hne].
        -- rewrite Hx. exact E.
        -- rewrite Hold by lia. apply Hall. lia.
      * intros j Hj. rewrite Hold by lia. apply Hbefore, Hj.
    + apply Qle_bool_false in E.
      rewrite <- Hlen. apply IH.
      * lia.
      * rewrite Hx. reflexivity.
      * intros j Hj. rewrite Hlen in Hj.
        destruct (Nat.eq_dec j (List.length pre)) as [->|Hne].
        -- rewrite Hx. apply Qle_refl.
        -- rewrite Hold by lia. apply Qlt_le_weak.
           apply Qle_lt_trans with mp; [apply Hall; lia | exact E].
      * intros j Hj. rewrite Hold by exact Hj.
        apply Qle_lt_trans with mp; [apply Hall, Hj | exact E].
Qed.

(** [np.argmax] on finite values: the first index of the maximum. *)
Lemma argmax_finite_spec (qs : list Q) :
  qs <> [] ->
  exists i,
    np_argmax (map Fin qs) = Ok i
    /\ (i < List.length qs)%nat
    /\ (forall j, (j < List.length qs)%nat -> nth j qs 0 <= nth i qs 0)
    /\ (forall j, (j < i)%nat -> nth j qs 0 < nth i qs 0).
Proof.
  destruct qs as [|x l]; [congruence | intros _]. simpl.
  eexists. split; [reflexivity|].
  apply (@argmax_loop_spec l [x] x 0%nat); simpl.
  - lia.
  - reflexivity.
  - intros j Hj. assert (j = 0%nat) as -> by lia. apply Qle_refl.
  - intros j Hj. lia.
Qed.

Lemma fold_fadd_fin (l : list Q) :
  forall a, fold_left fadd (map Fin l) (Fin a) = Fin (fold_left Qplus l a).
Proof. induction l as [|x l IH]; intro a; simpl; [reflexivity | apply IH]. Qed.

Lemma fold_Qplus_sum (l : list Q) :
  forall a, fold_left Qplus l a == a + Qsum l.
Proof.
  induction l as [|x l IH]; intro a; simpl.
  - ring.
  - rewrite IH. ring.
Qed.

(** Summing a chroma matrix of finite entries over the time axis. *)
Lemma sum_axis1_fin (rows : list (list Q)) :
  np_sum_axis1 (map (map Fin) rows)
  = map Fin (map (fun r => fold_left Qplus r 0) rows).
Proof.
  unfold np_sum_axis1, sum_list. rewrite !map_map.
  apply map_ext. intro r. apply fold_fadd_fin.
Qed.

Lemma nth_row_sum (rows : list (list Q)) (j : nat) :
  nth j (map (fun r => fold_left Qplus r 0) rows) 0 == Qsum (nth j rows []).
Proof.
  pose (F := fun r : list Q => fold_left Qplus r 0).
  change (nth j (map F rows) (F []) == Qsum (nth j rows [])).
  rewrite map_nth. unfold F. rewrite fold_Qplus_sum. ring.
Qed.

(** Once the key index is known and within the twelve labels, the rest of
    the aggregation cannot raise; the fields are what the code assigns. *)
Lemma aggregate_ok (p : Primitives) (i : nat) :
  np_argmax (np_sum_axis1 (p_chroma p)) = Ok i ->
  (i < 12)%nat ->
  exists f k,
    aggregate p = Ok f
    /\ nth_error keys i = Some k
    /\ key f = k
    /\ energy f = np_mean (Arr1 (p_rms p))
    /\ energy_variance f = np_var (Arr1 (p_rms p))
    /\ spectral_centroid f = np_mean (Arr1 (p_spectral_centroids p))
    /\ mfcc_mean f = np_mean_axis1 (p_mfccs p)
    /\ mfcc_variance f = np_var_axis1 (p_mfccs p)
    /\ calculate_valence (np_sum_axis1 (p_chroma p)) (p_tempo p)
         (np_mean (Arr1 (p_rms p))) = Ok (valence f)
    /\ intensity f = calculate_intensity (np_mean (Arr1 (p_rms p))) (p_tempo p)
    /\ complexity f
       = calculate_complexity (np_var (Arr1 (p_spectral_centroids p)))
           (Scalar (np_var (Arr2 (p_mfccs p))))
    /\ determine_mood (p_tempo p) (np_mean (Arr1 (p_rms p)))
         (np_sum_axis1 (p_chroma p)) = Ok (mood f).
Proof.
  intros Hi Hlt.
  destruct (nth_error keys i) as [k|] eqn:Hk.
  2:{ apply nth_error_None in Hk. simpl in Hk. lia. }
  unfold aggregate, keys_getitem, calculate_valence, determine_mood.
  rewrite Hi. cbv beta iota delta [rbind].
  rewrite Hk. cbv beta iota delta [rbind].
  eexists. exists k. repeat split; reflexivity.
Qed.

Lemma nth_error_keys_In (i : nat) (k : string) :
  nth_error keys i = Some k -> In k keys.
Proof. apply nth_error_In. Qed.

(** C7.  Key estimation: for every chroma matrix of 12 rows of finite
    energies (any number of frames), the key index is the first index of the
    maximum of the 12 per-row sums over the time axis, the reported key is
    the label at that index in the chromatic order C...B, and it is one of
    the 12 labels; an index below the chosen one has a strictly smaller
    sum, so the lowest index wins a tie. *)
Theorem key_is_first_maximal_pitch_class :
  forall (rows : list (list Q)) (p : Primitives),
    List.length rows = 12%nat ->
    p_chroma p = map (map Fin) rows ->
    let chroma_energy := fun j => Qsum (nth j rows []) in
    exists (i : nat) (f : Features),
      np_argmax (np_sum_axis1 (p_chroma p)) = Ok i
      /\ (i < 12)%nat
      /\ aggregate p = Ok f
      /\ nth_error keys i = Some (key f)
      /\ In (key f) keys
      /\ (forall j, (j < 12)%nat -> chroma_energy j <= chroma_energy i)
      /\ (forall j, (j < i)%nat -> chroma_energy j < chroma_energy i).
Proof.
  intros rows p Hlen Hp chroma_energy.
  set (es := map (fun r => fold_left Qplus r 0) rows).
  assert (Hes : List.length es = 12%nat) by (unfold es; rewrite length_map; exact Hlen).
  assert (Hne : es <> []) by (destruct es; [discriminate | congruence]).
  destruct (argmax_finite_spec Hne) as [i [Hi [Hlt [Hmax Hfirst]]]].
  rewrite Hes in Hlt, Hmax.
  assert (Hi' : np_argmax (np_sum_axis1 (p_chroma p)) = Ok i)
    by (rewrite Hp, sum_axis1_fin; exact Hi).
  destruct (aggregate_ok p Hi' Hlt) as [f [k [Hf [Hk [Hkey _]]]]].
  exists i, f. subst k.
  split; [exact Hi'|]. split; [exact Hlt|]. split; [exact Hf|].
  split; [exact Hk|]. split; [apply (nth_error_keys_In _ Hk)|].
  unfold chroma_energy. split.
  - intros j Hj. rewrite <- !nth_row_sum. apply Hmax, Hj.
  - intros j Hj. rewrite <- !nth_row_sum. apply Hfirst, Hj.
Qed.

Lemma key_is_first_maximal_pitch_class_tie :
  List.length (repeat [1; 1] 12) = 12%nat
  /\ p_chroma tied_clip = map (map Fin) (repeat [1; 1] 12)
  /\ exists f, aggregate tied_clip = Ok f /\ key f = "C"%string.
Proof.
  split; [reflexivity|]. split; [reflexivity|].
  destruct (@key_is_first_maximal_pitch_class (repeat [1; 1] 12) tied_clip
              eq_refl eq_refl)
    as [i [f [_ [Hlt [Hf [Hk [_ [_ Hfirst]]]]]]]].
  exists f. split; [exact Hf|].
  destruct i as [|i'].
  - simpl in Hk. congruence.
  - exfalso. specialize (Hfirst 0%nat (Nat.lt_0_succ i')).
    apply Qlt_not_le in Hfirst. apply Hfirst. clear Hk Hfirst Hf.
    do 11 (destruct i' as [|i']; [vm_compute; discriminate|]).
    lia.
Defined.

End KeyEstimation.

(* ================================================================== *)
(** ** Empty and silent clips *)
(* ================================================================== *)

Section Degenerate.
Open Scope Q_scope.

Lemma chroma_argmax_in_range (p : Primitives) :
  List.length (p_chroma p) = 12%nat ->
  exists i, np_argmax (np_sum_axis1 (p_chroma p)) = Ok i /\ (i < 12)%nat.
Proof.
  intro Hlen.
  assert (Hl : List.length (np_sum_axis1 (p_chroma p)) = 12%nat)
    by (unfold np_sum_axis1; rewrite length_map; exact Hlen).
  assert (Hne : np_sum_axis1 (p_chroma p) <> [])
    by (intro E; rewrite E in Hl; discriminate).
  destruct (argmax_nonempty Hne) as [i Hi].
  exists i. split; [exact Hi|].
  rewrite <- Hl. apply argmax_bound, Hi.
Qed.

Lemma valence_nan_energy (chroma_vals : list pyfloat) (tempo v : pyfloat) :
  calculate_valence chroma_vals tempo NaN = Ok v -> v = NaN.
Proof.
  unfold calculate_valence. destruct (np_argmax chroma_vals) as [i|e];
    cbv beta iota delta [rbind]; [|discriminate].
  intro H. injection H as <-.
  change (fmul (py_min (fmul NaN (Fin 10)) (Fin 1.0)) (Fin 0.3)) with NaN.
  rewrite fadd_nan_r. reflexivity.
Qed.

Lemma intensity_nan_energy (tempo : pyfloat) :
  calculate_intensity NaN tempo = NaN.
Proof. reflexivity. Qed.

Lemma complexity_nan_variance (mfcc_variance : ndarray) :
  calculate_complexity NaN mfcc_variance = NaN.
Proof. reflexivity. Qed.

Lemma Qsum_zeros (n : nat) : Qsum (repeat 0 n) == 0.
Proof. induction n as [|n IH]; simpl; [reflexivity | rewrite IH; ring]. Qed.

(** The mean of a non-empty sequence of zeros is 0. *)
Lemma mean_zeros (n : nat) : feq (mean_list (repeat (Fin 0) (S n))) (Fin 0).
Proof.
  unfold mean_list, sum_list, of_nat.
  replace (repeat (Fin 0) (S n)) with (map Fin (repeat 0 (S n)))
    by apply map_repeat.
  rewrite fold_fadd_fin, length_map, repeat_length.
  unfold fdiv. rewrite length_nonzero. unfold feq.
  rewrite fold_Qplus_sum, Qsum_zeros.
  unfold Qdiv. ring.
Qed.

(** Counterexample to C3 as stated: on the clip without frames the
    aggregation returns, but the mean energy is NaN, not 0, and valence,
    intensity and complexity are NaN as well: nothing sanitises them. *)
Lemma empty_clip_statistics_are_nan :
  exists f,
    aggregate empty_clip = Ok f
    /\ energy f = NaN
    /\ ~ feq (energy f) (Fin 0)
    /\ spectral_centroid f = NaN
    /\ valence f = NaN
    /\ intensity f = NaN
    /\ complexity f = NaN.
Proof.
  eexists. split; [vm_compute; reflexivity|]. simpl.
  repeat split; try reflexivity. intro H. exact H.
Qed.

(** C3 (amended).  With a chroma matrix of 12 rows the aggregation never
    raises, whatever the numbers and however short the sequences, so
    [analyze_audio] reports success whenever librosa returns.  A silent clip
    (RMS all zero, at least one frame) has mean energy 0.  Empty sequences
    do not give mean 0: the mean and variance of an empty RMS sequence are
    NaN, and so are valence and intensity; an empty centroid sequence gives a
    NaN mean and a NaN complexity. *)
Theorem aggregate_total_with_nan_statistics :
  forall p : Primitives,
    List.length (p_chroma p) = 12%nat ->
    exists f,
      aggregate p = Ok f
      /\ (forall librosa audio_path,
             librosa audio_path = Ok p ->
             analyze_audio librosa audio_path = Analysed f)
      /\ (forall n, p_rms p = repeat (Fin 0) (S n) -> feq (energy f) (Fin 0))
      /\ (p_rms p = [] ->
          energy f = NaN /\ energy_variance f = NaN
          /\ valence f = NaN /\ intensity f = NaN)
      /\ (p_spectral_centroids p = [] ->
          spectral_centroid f = NaN /\ complexity f = NaN).
Proof.
  intros p Hlen.
  destruct (chroma_argmax_in_range p Hlen) as [i [Hi Hlt]].
  destruct (aggregate_ok p Hi Hlt)
    as [f [k [Hf [_ [_ [He [Hev [Hsc [_ [_ [Hv [Hin [Hc _]]]]]]]]]]]]].
  exists f. split; [exact Hf|]. split; [|split; [|split]].
  - intros librosa audio_path Hl. unfold analyze_audio.
    rewrite Hl. cbv beta iota delta [rbind]. rewrite Hf. reflexivity.
  - intros n Hn. rewrite He, Hn. apply mean_zeros.
  - intro Hrms. rewrite Hrms in *.
    change (np_mean (Arr1 [])) with NaN in *.
    change (np_var (Arr1 [])) with NaN in *.
    split; [exact He|]. split; [exact Hev|]. split.
    + eapply valence_nan_energy, Hv.
    + rewrite Hin. apply intensity_nan_energy.
  - intro Hcen. rewrite Hcen in *.
    change (np_mean (Arr1 [])) with NaN in *.
    change (np_var (Arr1 [])) with NaN in *.
    split; [assumption|]. rewrite Hc. apply complexity_nan_variance.
Qed.

Lemma aggregate_total_with_nan_statistics_empty :
  List.length (p_chroma empty_clip) = 12%nat
  /\ exists f, aggregate empty_clip = Ok f /\ energy f = NaN.
Proof.
  split; [reflexivity|].
  destruct (aggregate_total_with_nan_statistics empty_clip eq_refl)
    as [f [Hf [_ [_ [Hrms _]]]]].
  exists f. split; [exact Hf|]. apply Hrms. reflexivity.
Defined.

End Degenerate.

(* ================================================================== *)
(** ** URL validation *)
(* ================================================================== *)

Section Validation.
Open Scope string_scope.

Lemma youtube_hosts_in (h : string) :
  existsb (String.eqb h) youtube_hosts = true <-> In h youtube_hosts.
Proof.
  rewrite existsb_exists. split.
  - intros [x [Hin Heq]]. apply String.eqb_eq in Heq. subst x. exact Hin.
  - intro H. exists h. split; [exact H | apply String.eqb_refl].
Qed.

(** What the validator accepts, in terms of the parsed URL. *)
Lemma is_valid_youtube_url_iff (url : string) :
  is_valid_youtube_url url = true <->
  exists parsed,
    urlparse url = Ok parsed
    /\ ((In (lowered_hostname parsed) youtube_hosts
         /\ path parsed = "/watch"
         /\ dict_mem "v" (parse_qs (query parsed)) = true)
        \/ (lowered_hostname parsed = "youtu.be"
            /\ (1 < String.length (path parsed))%nat)).
Proof.
  unfold is_valid_youtube_url. destruct (urlparse url) as [p|e].
  2:{ split; [discriminate | intros [p [H _]]; discriminate]. }
  split.
  - intro H. exists p. split; [reflexivity|].
    destruct (existsb (String.eqb (lowered_hostname p)) youtube_hosts) eqn:E.
    + left. apply andb_true_iff in H. destruct H as [H1 H2].
      apply youtube_hosts_in in E. apply String.eqb_eq in H1. auto.
    + destruct (String.eqb (lowered_hostname p) "youtu.be") eqn:E2;
        [|discriminate].
      right. apply String.eqb_eq in E2. apply Nat.ltb_lt in H. auto.
  - intros [p' [Hp H]]. injection Hp as <-.
    destruct H as [[Hh [Hpath Hv]] | [Hh Hlen]].
    + apply youtube_hosts_in in Hh. rewrite Hh, Hpath, Hv. reflexivity.
    + rewrite Hh. simpl. apply Nat.ltb_lt, Hlen.
Qed.

Lemma other_host_invalid (url : string) (parsed : ParseResult) :
  urlparse url = Ok parsed ->
  ~ In (lowered_hostname parsed) ("youtu.be" :: youtube_hosts) ->
  is_valid_youtube_url url = false.
Proof.
  intros Hp Hnot. destruct (is_valid_youtube_url url) eqn:E; [|reflexivity].
  exfalso. apply Hnot. apply is_valid_youtube_url_iff in E.
  destruct E as [p' [Hp' H]]. rewrite Hp in Hp'. injection Hp' as <-.
  destruct H as [[Hh _] | [Hh _]].
  - right. exact Hh.
  - left. symmetry. exact Hh.
Qed.

Lemma valid_url_nonempty (url : string) :
  is_valid_youtube_url url = true -> String.eqb url "" = false.
Proof.
  intro H. destruct (String.eqb url "") eqn:E; [|reflexivity].
  apply String.eqb_eq in E. subst url. vm_compute in H. discriminate.
Qed.

Lemma audio_rejects_invalid_url (env : Env) (query_params : list (string * string))
  (url : string) (t : trace) :
  assoc "url" query_params = Some url ->
  url <> "" ->
  is_valid_youtube_url url = false ->
  handle_youtube_audio_with_analysis env query_params t
  = (error_response 400 "Invalid YouTube URL" JNull, t).
Proof.
  intros Hq Hne Hinv. unfold handle_youtube_audio_with_analysis, audio_body.
  rewrite Hq. apply String.eqb_neq in Hne. rewrite Hne, Hinv. reflexivity.
Qed.

Lemma info_rejects_invalid_url (env : Env) (query_params : list (string * string))
  (url : string) (t : trace) :
  assoc "url" query_params = Some url ->
  url <> "" ->
  is_valid_youtube_url url = false ->
  handle_youtube_info env query_params t
  = (error_response 400 "Invalid YouTube URL" JNull, t).
Proof.
  intros Hq Hne Hinv. unfold handle_youtube_info, info_body.
  rewrite Hq. apply String.eqb_neq in Hne. rewrite Hne, Hinv. reflexivity.
Qed.

(** C9.  URL validation: the four sample URLs are classified as the
    specification says; a URL is valid exactly when it parses and either its
    host is one of the youtube.com hosts, its path is /watch and its query has
    a parameter v, or its host is youtu.be and its path is longer than the
    leading slash; every other host is invalid; and both operations answer an
    invalid URL with 400 without having run any subprocess (the trace of
    commands is unchanged). *)
Theorem url_validation :
  is_valid_youtube_url "https://www.youtube.com/watch?v=abc123" = true
  /\ is_valid_youtube_url "https://youtu.be/abc123" = true
  /\ is_valid_youtube_url "https://youtu.be/" = false
  /\ is_valid_youtube_url "https://example.com/watch?v=abc" = false
  /\ (forall url,
        is_valid_youtube_url url = true <->
        exists parsed,
          urlparse url = Ok parsed
          /\ ((In (lowered_hostname parsed) youtube_hosts
               /\ path parsed = "/watch"
               /\ dict_mem "v" (parse_qs (query parsed)) = true)
              \/ (lowered_hostname parsed = "youtu.be"
                  /\ (1 < String.length (path parsed))%nat)))
  /\ (forall url parsed,
        urlparse url = Ok parsed ->
        ~ In (lowered_hostname parsed) ("youtu.be" :: youtube_hosts) ->
        is_valid_youtube_url url = false)
  /\ (forall env query_params url t,
        assoc "url" query_params = Some url ->
        url <> "" ->
        is_valid_youtube_url url = false ->
        handle_youtube_audio_with_analysis env query_params t
        = (error_response 400 "Invalid YouTube URL" JNull, t)
        /\ handle_youtube_info env query_params t
           = (error_response 400 "Invalid YouTube URL" JNull, t)).
Proof.
  split; [reflexivity|]. split; [reflexivity|].
  split; [reflexivity|]. split; [reflexivity|].
  split; [exact is_valid_youtube_url_iff|].
  split; [exact other_host_invalid|].
  intros env query_params url t Hq Hne Hinv. split.
  - apply audio_rejects_invalid_url with url; assumption.
  - apply info_rejects_invalid_url with url; assumption.
Qed.

Lemma url_validation_example_com :
  statusCode
    (fst (handle_youtube_audio_with_analysis (sample_env "d200")
            [("url", "https://example.com/watch?v=abc")] []))
  = 400%Z
  /\ snd (handle_youtube_audio_with_analysis (sample_env "d200")
            [("url", "https://example.com/watch?v=abc")] [])
     = [].
Proof.
  destruct url_validation as [_ [_ [_ [Hinv [_ [_ H]]]]]].
  destruct (H (sample_env "d200") [("url", "https://example.com/watch?v=abc")]
              "https://example.com/watch?v=abc" [] eq_refl
              ltac:(discriminate) Hinv) as [Ha _].
  rewrite Ha. split; reflexivity.
Defined.

End Validation.

(* ================================================================== *)
(** ** The two operations after the metadata lookup *)
(* ================================================================== *)

Section Operations.
Open Scope string_scope.

Variable env : Env.
Variable query_params : list (string * string).
Variable url : string.
Variable t : trace.
Variable info : CompletedProcess.
Variable video_info : json.
Variable duration : json.

(** A request with a valid URL whose metadata lookup exits with 0 and prints
    a dictionary whose duration is [duration]. *)
Hypothesis Hurl : assoc "url" query_params = Some url.
Hypothesis Hvalid : is_valid_youtube_url url = true.
Hypothesis Hrun : run env (info_argv url) = Ok info.
Hypothesis Hexit : returncode info = 0%Z.
Hypothesis Hjson : json_loads env (stdout info) = Ok video_info.
Hypothesis Hduration : json_get video_info "duration" (JInt 0) = Ok duration.

(** The metadata operation: over the ceiling it answers 400 with the
    details, under it 200 with the five fields; the only command run is the
    lookup. *)
Lemma info_after_metadata :
  handle_youtube_info env query_params t
  = (match json_gt_int duration 300 with
     | Ok true =>
         error_response 400 "Video duration exceeds 5 minute limit"
           (duration_details duration)
     | Ok false =>
         let get := fun k default =>
           match json_get video_info k default with
           | Ok v => v
           | Raise _ => default
           end in
         success_response
           (JObj [("title", get "title" (JStr "Unknown"));
                  ("duration", duration);
                  ("thumbnail", get "thumbnail" (JStr ""));
                  ("author", py_or (get "uploader" JNull)
                                   (get "channel" (JStr "Unknown")));
                  ("url", get "webpage_url" (JStr url))])
     | Raise e => info_except e
     end, (t ++ [info_argv url])%list).
Proof.
  unfold handle_youtube_info, info_body.
  rewrite Hurl, (valid_url_nonempty _ Hvalid), Hvalid.
  cbv beta iota delta [negb bind subprocess_run lift].
  rewrite Hrun, Hexit. cbv beta iota delta [negb Z.eqb].
  rewrite Hjson, Hduration.
  destruct (json_gt_int duration 300) as [[|]|e]; try reflexivity.
  destruct video_info; try discriminate Hduration. reflexivity.
Qed.

(** A metadata lookup that runs out of time is answered with 504, by both
    operations. *)
Lemma timeout_is_504 :
  forall (env' : Env),
    run env' (info_argv url) = Raise TimeoutExpired ->
    statusCode (fst (handle_youtube_info env' query_params t)) = 504%Z
    /\ statusCode (fst (handle_youtube_audio_with_analysis env' query_params t))
       = 504%Z.
Proof.
  intros env' Ht.
  unfold handle_youtube_info, info_body, handle_youtube_audio_with_analysis,
    audio_body.
  rewrite Hurl, (valid_url_nonempty _ Hvalid), Hvalid.
  cbv beta iota delta [negb bind subprocess_run lift].
  rewrite Ht. split; reflexivity.
Qed.

(** The download-and-analyse operation, up to the point where it stops:
    over the ceiling it answers 400; under it, it reads the name [context],
    which the module does not bind, and the [NameError] becomes a 500; in
    both cases the only command run is the metadata lookup. *)
Lemma audio_after_metadata :
  handle_youtube_audio_with_analysis env query_params t
  = (match json_gt_int duration 300 with
     | Ok true =>
         error_response 400 "Video duration exceeds 5 minute limit"
           (duration_details duration)
     | Ok false =>
         error_response 500
           "Failed to process: name 'context' is not defined" JNull
     | Raise e => audio_except e
     end, (t ++ [info_argv url])%list).
Proof.
  unfold handle_youtube_audio_with_analysis, audio_body.
  rewrite Hurl, (valid_url_nonempty _ Hvalid), Hvalid.
  cbv beta iota delta [negb bind subprocess_run lift].
  rewrite Hrun, Hexit. cbv beta iota delta [negb Z.eqb].
  rewrite Hjson, Hduration.
  destruct (json_gt_int duration 300) as [[|]|e]; reflexivity.
Qed.

End Operations.

Section DurationGate.
Open Scope string_scope.

(** C10.  The metadata operation enforces the ceiling too: for a valid URL
    whose metadata lookup succeeds and reports a duration over 300, it
    answers 400 with the details [{duration, maxDuration: 300}] instead of
    the metadata, and the only command it has run is the lookup. *)
Theorem info_rejects_long_video :
  forall (env : Env) (query_params : list (string * string)) (url : string)
         (t : trace) (info : CompletedProcess) (video_info duration : json),
    assoc "url" query_params = Some url ->
    is_valid_youtube_url url = true ->
    run env (info_argv url) = Ok info ->
    returncode info = 0%Z ->
    json_loads env (stdout info) = Ok video_info ->
    json_get video_info "duration" (JInt 0) = Ok duration ->
    json_gt_int duration 300 = Ok true ->
    handle_youtube_info env query_params t
    = ({| statusCode := 400;
          headers := json_headers;
          body := JObj [("error", JStr "Video duration exceeds 5 minute limit");
                        ("details", JObj [("duration", duration);
                                          ("maxDuration", JInt 300)])] |},
       (t ++ [info_argv url])%list).
Proof.
  intros env query_params url t info video_info duration
         Hurl Hvalid Hrun Hexit Hjson Hduration Hover.
  rewrite (info_after_metadata env query_params t Hurl Hvalid Hrun Hexit
             Hjson Hduration).
  rewrite Hover. reflexivity.
Qed.

Lemma info_rejects_long_video_301 :
  statusCode (fst (handle_youtube_info (sample_env "d301")
                     [("url", sample_url)] []))
  = 400%Z
  /\ snd (handle_youtube_info (sample_env "d301") [("url", sample_url)] [])
     = [info_argv sample_url].
Proof.
  rewrite (@info_rejects_long_video (sample_env "d301") [("url", sample_url)]
             sample_url []
             {| returncode := 0; stdout := "d301"; stderr := "" |}
             (sample_info 301) (JInt 301)
             eq_refl eq_refl eq_refl eq_refl eq_refl eq_refl eq_refl).
  split; reflexivity.
Defined.

(** C1.  The download-and-analyse operation cannot answer 200: for every
    valid URL whose metadata lookup succeeds and reports a duration of at most
    300, whatever the download and the analysis would do, the handler answers
    500 with "Failed to process: name 'context' is not defined", and the
    download command is never run. *)
Theorem audio_analysis_stops_at_context :
  forall (env : Env) (query_params : list (string * string)) (url : string)
         (t : trace) (info : CompletedProcess) (video_info duration : json),
    assoc "url" query_params = Some url ->
    is_valid_youtube_url url = true ->
    run env (info_argv url) = Ok info ->
    returncode info = 0%Z ->
    json_loads env (stdout info) = Ok video_info ->
    json_get video_info "duration" (JInt 0) = Ok duration ->
    json_gt_int duration 300 = Ok false ->
    handle_youtube_audio_with_analysis env query_params t
    = ({| statusCode := 500;
          headers := json_headers;
          body := JObj [("error",
                         JStr "Failed to process: name 'context' is not defined")] |},
       (t ++ [info_argv url])%list).
Proof.
  intros env query_params url t info video_info duration
         Hurl Hvalid Hrun Hexit Hjson Hduration Hover.
  rewrite (audio_after_metadata env query_params t Hurl Hvalid Hrun Hexit
             Hjson Hduration).
  rewrite Hover. reflexivity.
Qed.

Lemma audio_analysis_stops_at_context_200s :
  statusCode (fst (handle_youtube_audio_with_analysis (sample_env "d200")
                     [("url", sample_url)] []))
  = 500%Z
  /\ snd (handle_youtube_audio_with_analysis (sample_env "d200")
            [("url", sample_url)] [])
     = [info_argv sample_url]
  /\ (exists p, librosa (sample_env "d200") "/tmp/audio_4242.mp3" = Ok p)
  /\ (exists c, run (sample_env "d200")
                  (download_argv "/tmp/audio_4242.mp3" sample_url) = Ok c
                /\ returncode c = 0%Z).
Proof.
  rewrite (@audio_analysis_stops_at_context (sample_env "d200")
             [("url", sample_url)] sample_url []
             {| returncode := 0; stdout := "d200"; stderr := "" |}
             (sample_info 200) (JInt 200)
             eq_refl eq_refl eq_refl eq_refl eq_refl eq_refl eq_refl).
  split; [reflexivity|]. split; [reflexivity|].
  split; [eexists; reflexivity|].
  eexists. split; reflexivity.
Defined.

(** C8.  Duration gate of the download-and-analyse operation: a metadata
    duration of 301 is answered with 400 and the details
    [{duration: 301, maxDuration: 300}], and no download command has been run;
    a duration of 300 passes the comparison, but the request then ends in the
    500 of the unbound name [context], and no download command is run
    either. *)
Theorem duration_gate_before_download :
  forall (env : Env) (query_params : list (string * string)) (url : string)
         (t : trace) (info : CompletedProcess) (video_info : json) (d : Z),
    assoc "url" query_params = Some url ->
    is_valid_youtube_url url = true ->
    run env (info_argv url) = Ok info ->
    returncode info = 0%Z ->
    json_loads env (stdout info) = Ok video_info ->
    json_get video_info "duration" (JInt 0) = Ok (JInt d) ->
    (d = 301%Z ->
     handle_youtube_audio_with_analysis env query_params t
     = ({| statusCode := 400;
           headers := json_headers;
           body := JObj [("error", JStr "Video duration exceeds 5 minute limit");
                         ("details", JObj [("duration", JInt 301);
                                           ("maxDuration", JInt 300)])] |},
        (t ++ [info_argv url])%list))
    /\ (d = 300%Z ->
        handle_youtube_audio_with_analysis env query_params t
        = ({| statusCode := 500;
              headers := json_headers;
              body := JObj [("error",
                             JStr "Failed to process: name 'context' is not defined")] |},
           (t ++ [info_argv url])%list)).
Proof.
  intros env query_params url t info video_info d
         Hurl Hvalid Hrun Hexit Hjson Hduration.
  rewrite (audio_after_metadata env query_params t Hurl Hvalid Hrun Hexit
             Hjson Hduration).
  split; intros ->; reflexivity.
Qed.

Lemma duration_gate_before_download_300 :
  statusCode (fst (handle_youtube_audio_with_analysis (sample_env "d300")
                     [("url", sample_url)] []))
  = 500%Z
  /\ snd (handle_youtube_audio_with_analysis (sample_env "d300")
            [("url", sample_url)] [])
     = [info_argv sample_url].
Proof.
  destruct (@duration_gate_before_download (sample_env "d300")
              [("url", sample_url)] sample_url []
              {| returncode := 0; stdout := "d300"; stderr := "" |}
              (sample_info 300) 300%Z
              eq_refl eq_refl eq_refl eq_refl eq_refl eq_refl) as [_ H].
  rewrite (H eq_refl). split; reflexivity.
Defined.

End DurationGate.

(* ================================================================== *)
(** ** Further facts about the code around the claims *)
(* ================================================================== *)

Section Around.
Open Scope Q_scope.

(** [calculate_complexity] itself agrees with the specification's formula
    when it is given the per-row variances; [analyze_audio] gives it the
    variance of the flattened matrix instead. *)
Lemma calculate_complexity_on_row_variances (v : pyfloat)
  (M : list (list pyfloat)) :
  feq (calculate_complexity v (Arr1 (np_var_axis1 M))) (complexity_spec v M).
Proof.
  unfold calculate_complexity, complexity_spec.
  destruct (np_mean (Arr1 (np_var_axis1 M))) as [y|]; destruct v as [x|];
    try exact I.
  - change (fdiv (Fin x) (Fin 1000000)) with (Fin (x / 1000000)).
    change (fdiv (Fin y) (Fin 100)) with (Fin (y / 100)).
    destruct (py_min_fin (x / 1000000) 1.0) as [a [-> Ha]].
    destruct (py_min_fin (x / 1000000) 1) as [a' [-> Ha']].
    destruct (py_min_fin (y / 100) 1.0) as [b [-> Hb]].
    destruct (py_min_fin (y / 100) 1) as [b' [-> Hb']].
    simpl.
    assert (Eone : 1.0 == 1) by reflexivity.
    assert (Ea : a == a') by (rewrite Ha, Ha'; apply Q.min_compat; [reflexivity | exact Eone]).
    assert (Eb : b == b') by (rewrite Hb, Hb'; apply Q.min_compat; [reflexivity | exact Eone]).
    apply Q.min_compat; [|reflexivity].
    apply Q.max_compat; [|reflexivity].
    rewrite Ea, Eb. ring.
  - change (fdiv (Fin x) (Fin 1000000)) with (Fin (x / 1000000)).
    destruct (py_min_fin (x / 1000000) 1.0) as [a [-> Ha]].
    destruct (py_min_fin (x / 1000000) 1) as [a' [-> Ha']].
    exact I.
Qed.

(** Without a [url] parameter both operations answer 400 and run nothing. *)
Lemma missing_url_is_400 (env : Env) (query_params : list (string * string))
  (t : trace) :
  url_missing (assoc "url" query_params) = true ->
  handle_youtube_info env query_params t
  = (error_response 400 "URL parameter is required" JNull, t)
  /\ handle_youtube_audio_with_analysis env query_params t
     = (error_response 400 "URL parameter is required" JNull, t).
Proof.
  unfold handle_youtube_info, info_body, handle_youtube_audio_with_analysis,
    audio_body, url_missing.
  destruct (assoc "url" query_params) as [u|]; [|split; reflexivity].
  intros ->. split; reflexivity.
Qed.

(** The router sends a path ending in [/audio-with-analysis] to the
    download-and-analyse operation. *)
Lemma lambda_handler_routes_audio (env : Env) (q : list (string * string))
  (t : trace) :
  lambda_handler env
    {| ev_path := Some "/api/youtube/audio-with-analysis"%string;
       ev_queryStringParameters := Some q |} t
  = handle_youtube_audio_with_analysis env q t.
Proof.
  reflexivity.
Qed.

End Around.

(* ================================================================== *)
(** ** Further properties of the scores *)
(* ================================================================== *)

Section ScoreShapes.
Open Scope Q_scope.

Lemma clamp01_le (a b : Q) : a <= b -> clamp01 a <= clamp01 b.
Proof.
  intro H. unfold clamp01.
  apply Q.min_le_compat_r, Q.max_le_compat_r, H.
Qed.

Lemma clamp01_id (q : Q) : 0 <= q -> q <= 1 -> clamp01 q == q.
Proof.
  intros H0 H1. unfold clamp01.
  rewrite Q.max_l by exact H0. apply Q.min_l, H1.
Qed.

Lemma min_one_compat (a : Q) : Qmin a 1.0 == Qmin a 1.
Proof. apply Q.min_compat; reflexivity. Qed.

Lemma intensity_closed_form (energy tempo : Q) :
  exists q,
    calculate_intensity (Fin energy) (Fin tempo) = Fin q
    /\ q == clamp01 (Qmin (energy * 10) 1 * 0.6 + Qmin (tempo / 180) 1 * 0.4).
Proof.
  unfold calculate_intensity.
  change (fmul (Fin energy) (Fin 10)) with (Fin (energy * 10)).
  change (fdiv (Fin tempo) (Fin 180.0)) with (Fin (tempo / 180.0)).
  destruct (py_min_fin (energy * 10) 1.0) as [a [-> Ha]].
  destruct (py_min_fin (tempo / 180.0) 1.0) as [b [-> Hb]].
  eexists. split; [reflexivity|].
  unfold clamp01. apply Q.min_compat; [|reflexivity].
  apply Q.max_compat; [|reflexivity].
  rewrite Ha, Hb, !min_one_compat.
  assert (E : tempo / 180.0 == tempo / 180) by (unfold Qdiv; apply Qmult_comp; reflexivity).
  rewrite (Q.min_compat _ _ E 1 1 (Qeq_refl 1)). reflexivity.
Qed.

Lemma valence_closed_form (chroma_vals : list pyfloat) (i : nat)
  (tempo energy : Q) :
  np_argmax chroma_vals = Ok i ->
  exists q,
    calculate_valence chroma_vals (Fin tempo) (Fin energy) = Ok (Fin q)
    /\ q == clamp01 ((if is_major_index i then 0.4 else 0.2)
                     + Qmin (tempo / 180) 1 * 0.3
                     + Qmin (energy * 10) 1 * 0.3).
Proof.
  intro Hi. unfold calculate_valence. rewrite Hi.
  cbv beta iota delta [rbind].
  change (fmul (Fin energy) (Fin 10)) with (Fin (energy * 10)).
  change (fdiv (Fin tempo) (Fin 180.0)) with (Fin (tempo / 180.0)).
  destruct (py_min_fin (energy * 10) 1.0) as [a [-> Ha]].
  destruct (py_min_fin (tempo / 180.0) 1.0) as [b [-> Hb]].
  assert (E : tempo / 180.0 == tempo / 180) by (unfold Qdiv; apply Qmult_comp; reflexivity).
  assert (Hb' : b == Qmin (tempo / 180) 1)
    by (rewrite Hb, min_one_compat; apply Q.min_compat; [exact E | reflexivity]).
  assert (Ha' : a == Qmin (energy * 10) 1) by (rewrite Ha; apply min_one_compat).
  destruct (is_major_index i); eexists; (split; [reflexivity|]);
    unfold clamp01; (apply Q.min_compat; [|reflexivity]);
    (apply Q.max_compat; [|reflexivity]); rewrite Ha', Hb'; reflexivity.
Qed.

Lemma min_scaled_mono (a b k : Q) :
  0 <= k -> a <= b -> Qmin a 1 * k <= Qmin b 1 * k.
Proof.
  intros Hk Hab. apply Qmult_le_compat_r; [|exact Hk].
  apply Q.min_le_compat_r, Hab.
Qed.

Lemma times_ten_mono (a b : Q) : a <= b -> a * 10 <= b * 10.
Proof. intro H. apply Qmult_le_compat_r; [exact H | discriminate]. Qed.

Lemma over_180_mono (a b : Q) : a <= b -> a / 180 <= b / 180.
Proof. intro H. unfold Qdiv. apply Qmult_le_compat_r; [exact H | discriminate]. Qed.

(** X1.  Intensity never decreases when the mean energy or the tempo grows
    (finite values). *)
Theorem intensity_monotone :
  forall energy1 energy2 tempo1 tempo2 : Q,
    energy1 <= energy2 -> tempo1 <= tempo2 ->
    exists a b,
      calculate_intensity (Fin energy1) (Fin tempo1) = Fin a
      /\ calculate_intensity (Fin energy2) (Fin tempo2) = Fin b
      /\ a <= b.
Proof.
  intros e1 e2 t1 t2 He Ht.
  destruct (intensity_closed_form e1 t1) as [a [Ha Ea]].
  destruct (intensity_closed_form e2 t2) as [b [Hb Eb]].
  exists a, b. split; [exact Ha|]. split; [exact Hb|].
  rewrite Ea, Eb. apply clamp01_le. apply Qplus_le_compat.
  - apply min_scaled_mono; [discriminate | apply times_ten_mono, He].
  - apply min_scaled_mono; [discriminate | apply over_180_mono, Ht].
Qed.

Lemma intensity_monotone_example :
  (0.05 <= 0.2) /\ (90 <= 150)
  /\ exists a b,
       calculate_intensity (Fin 0.05) (Fin 90) = Fin a
       /\ calculate_intensity (Fin 0.2) (Fin 150) = Fin b
       /\ a <= b.
Proof.
  assert (H1 : 0.05 <= 0.2) by discriminate.
  assert (H2 : 90 <= 150) by discriminate.
  split; [exact H1|]. split; [exact H2|].
  exact (@intensity_monotone 0.05 0.2 90 150 H1 H2).
Defined.

(** X2.  For one chroma vector, valence never decreases when the tempo or
    the mean energy grows (finite values). *)
Theorem valence_monotone :
  forall (chroma_vals : list pyfloat) (energy1 energy2 tempo1 tempo2 : Q),
    chroma_vals <> [] ->
    energy1 <= energy2 -> tempo1 <= tempo2 ->
    exists a b,
      calculate_valence chroma_vals (Fin tempo1) (Fin energy1) = Ok (Fin a)
      /\ calculate_valence chroma_vals (Fin tempo2) (Fin energy2) = Ok (Fin b)
      /\ a <= b.
Proof.
  intros chroma_vals e1 e2 t1 t2 Hne He Ht.
  destruct (argmax_nonempty Hne) as [i Hi].
  destruct (@valence_closed_form chroma_vals i t1 e1 Hi) as [a [Ha Ea]].
  destruct (@valence_closed_form chroma_vals i t2 e2 Hi) as [b [Hb Eb]].
  exists a, b. split; [exact Ha|]. split; [exact Hb|].
  rewrite Ea, Eb. apply clamp01_le.
  apply Qplus_le_compat; [apply Qplus_le_compat; [apply Qle_refl|]|].
  - apply min_scaled_mono; [discriminate | apply over_180_mono, Ht].
  - apply min_scaled_mono; [discriminate | apply times_ten_mono, He].
Qed.

Lemma valence_monotone_example :
  chroma_vals_C <> [] /\ (0.05 <= 0.2) /\ (90 <= 150)
  /\ exists a b,
       calculate_valence chroma_vals_C (Fin 90) (Fin 0.05) = Ok (Fin a)
       /\ calculate_valence chroma_vals_C (Fin 150) (Fin 0.2) = Ok (Fin b)
       /\ a <= b.
Proof.
  assert (H0 : chroma_vals_C <> []) by discriminate.
  assert (H1 : 0.05 <= 0.2) by discriminate.
  assert (H2 : 90 <= 150) by discriminate.
  split; [exact H0|]. split; [exact H1|]. split; [exact H2|].
  exact (@valence_monotone chroma_vals_C 0.05 0.2 90 150 H0 H1 H2).
Defined.

Lemma min_one_nonneg (a : Q) : 0 <= a -> 0 <= Qmin a 1.
Proof. intro H. apply Q.min_glb; [exact H | discriminate]. Qed.

Lemma min_one_le_one (a : Q) : Qmin a 1 <= 1.
Proof. apply Q.le_min_r. Qed.

(** X3.  Valence by mode, for a non-negative finite tempo and energy: with
    the key index in [major_keys] it lies in [0.4, 1], otherwise in
    [0.2, 0.8]; a minor key can never reach the valence of a fast, loud
    major one. *)
Theorem valence_range_by_mode :
  forall (chroma_vals : list pyfloat) (i : nat) (tempo energy : Q),
    np_argmax chroma_vals = Ok i ->
    0 <= tempo -> 0 <= energy ->
    exists v,
      calculate_valence chroma_vals (Fin tempo) (Fin energy) = Ok (Fin v)
      /\ (is_major_index i = true -> 0.4 <= v /\ v <= 1)
      /\ (is_major_index i = false -> 0.2 <= v /\ v <= 0.8).
Proof.
  intros chroma_vals i tempo energy Hi Ht He.
  destruct (@valence_closed_form chroma_vals i tempo energy Hi) as [v [Hv Ev]].
  exists v. split; [exact Hv|].
  assert (Ht0 : 0 <= Qmin (tempo / 180) 1).
  { apply min_one_nonneg. unfold Qdiv.
    apply Qmult_le_0_compat; [exact Ht | discriminate]. }
  assert (He0 : 0 <= Qmin (energy * 10) 1).
  { apply min_one_nonneg. apply Qmult_le_0_compat; [exact He | discriminate]. }
  pose proof (min_one_le_one (tempo / 180)) as Ht1.
  pose proof (min_one_le_one (energy * 10)) as He1.
  split; intro Hm; rewrite Hm in Ev; rewrite Ev.
  - rewrite clamp01_id by lra. lra.
  - rewrite clamp01_id by lra. lra.
Qed.

Lemma valence_range_by_mode_example :
  np_argmax chroma_vals_C = Ok 0%nat /\ 0 <= 150 /\ 0 <= 0.2
  /\ exists v,
       calculate_valence chroma_vals_C (Fin 150) (Fin 0.2) = Ok (Fin v)
       /\ 0.4 <= v /\ v <= 1.
Proof.
  assert (H0 : np_argmax chroma_vals_C = Ok 0%nat) by reflexivity.
  assert (H1 : 0 <= 150) by discriminate.
  assert (H2 : 0 <= 0.2) by discriminate.
  split; [exact H0|]. split; [exact H1|]. split; [exact H2|].
  destruct (@valence_range_by_mode chroma_vals_C 0%nat 150 0.2 H0 H1 H2) as [v [Hv [Hmaj _]]].
  exists v. split; [exact Hv|]. apply Hmaj. reflexivity.
Defined.

(** X4.  Saturation: from a mean energy of 0.1 and a tempo of 180 on, the
    intensity is exactly 1, whatever the excess. *)
Theorem intensity_saturates :
  forall energy tempo : Q,
    0.1 <= energy -> 180 <= tempo ->
    feq (calculate_intensity (Fin energy) (Fin tempo)) (Fin 1).
Proof.
  intros energy tempo He Ht.
  destruct (intensity_closed_form energy tempo) as [q [Hq Eq]].
  rewrite Hq. unfold feq. rewrite Eq.
  assert (E1 : Qmin (energy * 10) 1 == 1) by (apply Q.min_r; lra).
  assert (E2 : Qmin (tempo / 180) 1 == 1)
    by (apply Q.min_r; apply Qle_shift_div_l; [reflexivity | lra]).
  unfold clamp01. rewrite E1, E2. reflexivity.
Qed.

Lemma intensity_saturates_example :
  0.1 <= 0.5 /\ 180 <= 240
  /\ feq (calculate_intensity (Fin 0.5) (Fin 240)) (Fin 1).
Proof.
  assert (H1 : 0.1 <= 0.5) by discriminate.
  assert (H2 : 180 <= 240) by discriminate.
  split; [exact H1|]. split; [exact H2|].
  exact (@intensity_saturates 0.5 240 H1 H2).
Defined.

End ScoreShapes.

(* ================================================================== *)
(** ** Further properties of the aggregation *)
(* ================================================================== *)

Section Aggregation.
Open Scope Q_scope.
Open Scope string_scope.

(** A successful aggregation went through one key index below 12, and its
    fields are what [aggregate_ok] lists. *)
Lemma aggregate_inv (p : Primitives) (f : Features) :
  aggregate p = Ok f ->
  exists i,
    np_argmax (np_sum_axis1 (p_chroma p)) = Ok i
    /\ (i < 12)%nat
    /\ nth_error keys i = Some (key f)
    /\ energy f = np_mean (Arr1 (p_rms p))
    /\ energy_variance f = np_var (Arr1 (p_rms p))
    /\ complexity f
       = calculate_complexity (np_var (Arr1 (p_spectral_centroids p)))
           (Scalar (np_var (Arr2 (p_mfccs p))))
    /\ determine_mood (p_tempo p) (np_mean (Arr1 (p_rms p)))
         (np_sum_axis1 (p_chroma p)) = Ok (mood f).
Proof.
  intro Hf.
  destruct (np_argmax (np_sum_axis1 (p_chroma p))) as [i|e] eqn:Hi.
  2:{ unfold aggregate in Hf. rewrite Hi in Hf. discriminate. }
  assert (Hlt : (i < 12)%nat).
  { destruct (nth_error keys i) as [k|] eqn:Hk.
    - apply (nth_error_Some keys i). congruence.
    - unfold aggregate, keys_getitem in Hf. rewrite Hi in Hf.
      cbv beta iota delta [rbind] in Hf. rewrite Hk in Hf. discriminate. }
  destruct (aggregate_ok p Hi Hlt)
    as [f' [k [Hf' [Hk [Hkey [He [Hev [_ [_ [_ [_ [_ [Hc Hm]]]]]]]]]]]]].
  rewrite Hf in Hf'. injection Hf' as <-. subst k.
  exists i. repeat split; assumption.
Qed.

Lemma natural_key_iff_major (i : nat) (k : string) :
  nth_error keys i = Some k ->
  (In k natural_keys <-> is_major_index i = true).
Proof.
  intro Hk.
  do 12 (destruct i as [|i];
         [ injection Hk as <-; vm_compute; split;
           [ intro H; first [reflexivity | exfalso; intuition discriminate]
           | intro H; first [discriminate H | solve [auto 10]] ]
         | ]).
  destruct i; discriminate Hk.
Qed.

Lemma major_mood_iff_major (tempo energy : pyfloat) (chroma_vals : list pyfloat)
  (i : nat) (m : string) :
  np_argmax chroma_vals = Ok i ->
  determine_mood tempo energy chroma_vals = Ok m ->
  (In m major_moods <-> is_major_index i = true).
Proof.
  intros Hi Hm. unfold determine_mood in Hm. rewrite Hi in Hm.
  cbv beta iota delta [rbind] in Hm. revert Hm.
  destruct (fgt tempo (Fin 140) && fgt energy (Fin 0.15))%bool,
    (fgt tempo (Fin 100) && fgt energy (Fin 0.1))%bool,
    (flt tempo (Fin 80)), (is_major_index i);
    intro Hm; injection Hm as <-;
    vm_compute; split; intro H;
    first [reflexivity | discriminate H | solve [auto 10]
          | exfalso; intuition discriminate].
Qed.

(** X5.  Key and mood agree on the mode: in every successful aggregation
    the mood is one of the major labels (energetic, upbeat, calm, moderate)
    exactly when the reported key has no sharp (C, D, E, F, G, A, B). *)
Theorem mood_mode_matches_key :
  forall (p : Primitives) (f : Features),
    aggregate p = Ok f ->
    (In (mood f) major_moods <-> In (key f) natural_keys).
Proof.
  intros p f Hf.
  destruct (@aggregate_inv p f Hf) as [i [Hi [_ [Hk [_ [_ [_ Hm]]]]]]].
  rewrite (@major_mood_iff_major _ _ _ _ _ Hi Hm).
  rewrite (@natural_key_iff_major _ _ Hk). reflexivity.
Qed.

Lemma mood_mode_matches_key_example :
  exists f,
    aggregate constant_rows_clip = Ok f
    /\ (In (mood f) major_moods <-> In (key f) natural_keys)
    /\ key f = "C".
Proof.
  destruct (aggregate constant_rows_clip) as [f|e] eqn:Hf;
    [|vm_compute in Hf; discriminate Hf].
  exists f. split; [reflexivity|].
  split; [exact (@mood_mode_matches_key constant_rows_clip f Hf)|].
  vm_compute in Hf. injection Hf as <-. reflexivity.
Defined.

(** X6.  A clip without RMS frames can never be labelled energetic,
    intense, upbeat or dramatic, whatever its tempo: its mean energy is NaN,
    both energy comparisons are false, and only the tempo rule and the
    default remain. *)
Theorem empty_rms_mood_is_slow :
  forall (p : Primitives) (f : Features),
    aggregate p = Ok f ->
    p_rms p = [] ->
    In (mood f) slow_moods.
Proof.
  intros p f Hf Hrms.
  destruct (@aggregate_inv p f Hf) as [i [Hi [_ [_ [_ [_ [_ Hm]]]]]]].
  rewrite Hrms in Hm. change (np_mean (Arr1 [])) with NaN in Hm.
  unfold determine_mood in Hm. rewrite Hi in Hm.
  cbv beta iota delta [rbind] in Hm. revert Hm.
  change (fgt NaN (Fin 0.15)) with false.
  change (fgt NaN (Fin 0.1)) with false.
  rewrite !andb_false_r.
  destruct (flt (p_tempo p) (Fin 80)), (is_major_index i);
    intro Hm; injection Hm as <-; vm_compute; auto 10.
Qed.

Lemma empty_rms_mood_is_slow_example :
  exists f, aggregate empty_clip = Ok f /\ In (mood f) slow_moods.
Proof.
  destruct (aggregate empty_clip) as [f|e] eqn:Hf;
    [|vm_compute in Hf; discriminate Hf].
  exists f. split; [reflexivity|].
  exact (@empty_rms_mood_is_slow empty_clip f Hf eq_refl).
Defined.



Lemma mean_scalar (w : Q) : feq (np_mean (Scalar (Fin w))) (Fin w).
Proof.
  change (np_mean (Scalar (Fin w))) with (Fin ((0 + w) / 1)).
  unfold feq. field.
Qed.

(** X8.  The complexity that [analyze_audio] reports, for a finite centroid
    variance [v] and a finite variance [w] of all the entries of the MFCC
    matrix taken together, is
    [clamp(0.5*min(v/1000000, 1) + 0.5*min(w/100, 1), 0, 1)]. *)
Theorem reported_complexity_formula :
  forall (p : Primitives) (f : Features) (v w : Q),
    aggregate p = Ok f ->
    np_var (Arr1 (p_spectral_centroids p)) = Fin v ->
    np_var (Arr2 (p_mfccs p)) = Fin w ->
    feq (complexity f)
        (Fin (clamp01 (Qmin (v / 1000000) 1 * 0.5 + Qmin (w / 100) 1 * 0.5))).
Proof.
  intros p f v w Hf Hv Hw.
  destruct (@aggregate_inv p f Hf) as [i [_ [_ [_ [_ [_ [Hc _]]]]]]].
  rewrite Hc, Hv, Hw. unfold calculate_complexity.
  pose proof (mean_scalar w) as Hm.
  destruct (np_mean (Scalar (Fin w))) as [m|]; [|contradiction].
  unfold feq in Hm.
  change (fdiv (Fin v) (Fin 1000000)) with (Fin (v / 1000000)).
  change (fdiv (Fin m) (Fin 100)) with (Fin (m / 100)).
  destruct (py_min_fin (v / 1000000) 1.0) as [a [-> Ha]].
  destruct (py_min_fin (m / 100) 1.0) as [b [-> Hb]].
  unfold feq, clamp01. simpl.
  apply Q.min_compat; [|reflexivity].
  apply Q.max_compat; [|reflexivity].
  rewrite Ha, Hb, !min_one_compat.
  assert (E : m / 100 == w / 100) by (rewrite Hm; reflexivity).
  rewrite (Q.min_compat _ _ E 1 1 (Qeq_refl 1)). reflexivity.
Qed.

Lemma reported_complexity_formula_example :
  exists f,
    aggregate constant_rows_clip = Ok f
    /\ feq (complexity f)
           (Fin (clamp01 (Qmin (0 / 1000000) 1 * 0.5 + Qmin (14 / 100) 1 * 0.5))).
Proof.
  destruct (aggregate constant_rows_clip) as [f|e] eqn:Hf;
    [|vm_compute in Hf; discriminate Hf].
  exists f. split; [reflexivity|].
  assert (Hv : exists v, np_var (Arr1 (p_spectral_centroids constant_rows_clip))
                         = Fin v /\ v == 0)
    by (eexists; split; [vm_compute; reflexivity | reflexivity]).
  assert (Hw : exists w, np_var (Arr2 (p_mfccs constant_rows_clip)) = Fin w
                         /\ w == 14)
    by (eexists; split; [vm_compute; reflexivity | reflexivity]).
  destruct Hv as [v [Hv Ev]]. destruct Hw as [w [Hw Ew]].
  pose proof (@reported_complexity_formula constant_rows_clip f v w Hf Hv Hw) as H.
  destruct (complexity f) as [c|]; [|contradiction].
  unfold feq in *. rewrite H. unfold clamp01.
  apply Q.min_compat; [|reflexivity].
  apply Q.max_compat; [|reflexivity].
  rewrite Ev, Ew. reflexivity.
Defined.

End Aggregation.

Section Variance.
Open Scope Q_scope.







End Variance.

(* ================================================================== *)
(** ** The command form *)
(* ================================================================== *)

Section CommandForm.
Open Scope string_scope.

(** X10.  The command form prints exactly one object, exits with 1 exactly
    when it was not given one path (the usage error), and exits with 0
    otherwise: also when the analysis failed, which is told only by
    [success: false] and the error message in the printed object. *)
Theorem main_exit_status :
  forall (librosa : string -> result Primitives) (argv : list string),
    List.length (fst (main librosa argv)) = 1%nat
    /\ (snd (main librosa argv) = 1%Z <-> List.length argv <> 2%nat)
    /\ (snd (main librosa argv) = 0%Z <-> List.length argv = 2%nat)
    /\ (List.length argv <> 2%nat -> fst (main librosa argv) = [usage_error])
    /\ (forall prog audio_path e,
          argv = [prog; audio_path] ->
          librosa audio_path = Raise e ->
          main librosa argv
          = ([JObj [("success", JBool false); ("error", JStr (str_exn e))]], 0%Z)).
Proof.
  intros librosa argv. unfold main.
  destruct (Nat.eqb (List.length argv) 2) eqn:E; simpl.
  - apply Nat.eqb_eq in E. repeat split; try (intros; congruence).
    intros prog audio_path e -> He. simpl.
    unfold analyze_audio. rewrite He. reflexivity.
  - apply Nat.eqb_neq in E. repeat split; try (intros; congruence).
    intros prog audio_path e -> _. simpl in E. congruence.
Qed.

End CommandForm.

Lemma main_exit_status_example :
  main (fun _ => Raise (OtherError "no such file")) ["audio_analyzer.py"; "x.mp3"]%string
  = ([JObj [("success", JBool false); ("error", JStr "no such file")]]%string, 0%Z).
Proof.
  destruct (main_exit_status (fun _ => Raise (OtherError "no such file"))
              ["audio_analyzer.py"; "x.mp3"]%string) as [_ [_ [_ [_ H]]]].
  exact (H _ _ _ (eq_refl _) (eq_refl _)).
Defined.

(* ================================================================== *)
(** ** Further properties of the handlers *)
(* ================================================================== *)

Section HandlerShapes.
Open Scope string_scope.

(** Case analysis on every test a handler makes. *)
Ltac split_handler :=
  repeat match goal with
         | |- context [match ?x with _ => _ end] =>
             lazymatch x with
             | context [match _ with _ => _ end] => fail
             | _ => destruct x eqn:?
             end
         end.

Lemma load_context : load_global "context" = Raise (NameError "context").
Proof. reflexivity. Qed.

(** How [handle_youtube_info] can end: a success response, or an error
    response with 400, 500 or 504; the commands run are none, or the one
    metadata lookup of a valid URL. *)
Lemma info_outcomes (env : Env) (q : list (string * string)) (t : trace) :
  let r := handle_youtube_info env q t in
  ((exists d, fst r = success_response d)
   \/ (exists s m d, fst r = error_response s m d /\ In s [400; 500; 504]%Z))
  /\ (snd r = t
      \/ exists url, assoc "url" q = Some url
                     /\ is_valid_youtube_url url = true
                     /\ snd r = (t ++ [info_argv url])%list).
Proof.
  cbv zeta. unfold handle_youtube_info, info_body.
  cbv beta iota delta [bind lift ret subprocess_run info_except negb].
  split_handler; cbn [fst snd]; (split; [|eauto 6]);
    first [ left; eexists; reflexivity
          | right; do 3 eexists; split; [reflexivity | simpl; tauto] ].
Qed.

(** How [handle_youtube_audio_with_analysis] can end: never with a success
    response. *)
Lemma audio_outcomes (env : Env) (q : list (string * string)) (t : trace) :
  let r := handle_youtube_audio_with_analysis env q t in
  (exists s m d, fst r = error_response s m d /\ In s [400; 500; 504]%Z)
  /\ (snd r = t
      \/ exists url, assoc "url" q = Some url
                     /\ is_valid_youtube_url url = true
                     /\ snd r = (t ++ [info_argv url])%list).
Proof.
  cbv zeta. unfold handle_youtube_audio_with_analysis, audio_body.
  rewrite load_context.
  cbv beta iota delta [bind lift ret subprocess_run audio_except negb].
  split_handler; cbn [fst snd]; (split; [|eauto 6]);
    do 3 eexists; (split; [reflexivity | simpl; tauto]).
Qed.

End HandlerShapes.

Section Router.
Open Scope string_scope.

Lemma error_response_envelope (s : Z) (m : string) (d : json) :
  headers (error_response s m d) = json_headers
  /\ statusCode (error_response s m d) = s
  /\ exists rest,
       body (error_response s m d) = JObj (("error", JStr m) :: rest)
       /\ (rest = [] \/ (rest = [("details", d)] /\ truthy d = true)).
Proof.
  unfold error_response. destruct (truthy d) eqn:E; simpl.
  - repeat split. eexists. split; [reflexivity|]. right. split; reflexivity.
  - repeat split. eexists. split; [reflexivity|]. left. reflexivity.
Qed.

Lemma router_outcomes (env : Env) (event : Event) (t : trace) :
  let r := lambda_handler env event t in
  ((exists d, fst r = success_response d)
   \/ (exists s m d, fst r = error_response s m d
                     /\ In s [400; 404; 500; 504]%Z))
  /\ (snd r = t
      \/ exists q url, ev_queryStringParameters event = Some q
                       /\ assoc "url" q = Some url
                       /\ is_valid_youtube_url url = true
                       /\ snd r = (t ++ [info_argv url])%list).
Proof.
  cbv zeta. unfold lambda_handler.
  set (q := match ev_queryStringParameters event with
            | Some q => q
            | None => []
            end).
  assert (Hq : forall url, assoc "url" q = Some url ->
                           ev_queryStringParameters event = Some q).
  { subst q. destruct (ev_queryStringParameters event); [reflexivity|].
    intros url H. discriminate H. }
  destruct (endswith _ "/info").
  - destruct (info_outcomes env q t) as [Hr Ht]. split.
    + destruct Hr as [Hr | [s [m [d [Hr Hs]]]]]; [left; exact Hr|].
      right. exists s, m, d. split; [exact Hr|]. simpl in *. tauto.
    + destruct Ht as [Ht | [url [Hu [Hv Ht]]]]; [left; exact Ht|].
      right. exists q, url. split; [exact (Hq url Hu)|]. auto.
  - destruct (endswith _ "/audio-with-analysis").
    + destruct (audio_outcomes env q t) as [[s [m [d [Hr Hs]]]] Ht]. split.
      * right. exists s, m, d. split; [exact Hr|]. simpl in *. tauto.
      * destruct Ht as [Ht | [url [Hu [Hv Ht]]]]; [left; exact Ht|].
        right. exists q, url. split; [exact (Hq url Hu)|]. auto.
    + split; [|left; reflexivity].
      right. do 3 eexists. split; [reflexivity|]. simpl. tauto.
Qed.

(** X11.  Validation precedes acquisition, for the whole router: a request
    either runs no command at all, or exactly one, the metadata lookup
    [yt-dlp --dump-json --no-playlist url], and then [url] is the request's
    parameter and passed the validator.  No request runs the download
    command. *)
Theorem router_runs_only_valid_lookup :
  forall (env : Env) (event : Event) (t : trace),
    (snd (lambda_handler env event t) = t
     \/ exists q url,
          ev_queryStringParameters event = Some q
          /\ assoc "url" q = Some url
          /\ is_valid_youtube_url url = true
          /\ snd (lambda_handler env event t) = (t ++ [info_argv url])%list)
    /\ (forall audio_file url,
          ~ In (download_argv audio_file url) t ->
          ~ In (download_argv audio_file url) (snd (lambda_handler env event t))).
Proof.
  intros env event t.
  destruct (router_outcomes env event t) as [_ Ht]. cbv zeta in Ht.
  split; [exact Ht|].
  intros audio_file url Hnot Hin.
  destruct Ht as [Ht | [q [u [_ [_ [_ Ht]]]]]]; rewrite Ht in Hin.
  - exact (Hnot Hin).
  - apply in_app_or in Hin. destruct Hin as [Hin | [Hin | []]].
    + exact (Hnot Hin).
    + discriminate Hin.
Qed.

(** X12.  The envelope of every answer of the router: the two JSON and
    CORS headers, a status among 200, 400, 404, 500 and 504, and, unless the
    status is 200, a body [{error: message}] with at most one more key,
    [details], whose value is then not empty. *)
Theorem router_response_envelope :
  forall (env : Env) (event : Event) (t : trace),
    let r := fst (lambda_handler env event t) in
    headers r = json_headers
    /\ In (statusCode r) router_statuses
    /\ (statusCode r <> 200%Z ->
        exists m rest,
          body r = JObj (("error", JStr m) :: rest)
          /\ (rest = [] \/ exists d, rest = [("details", d)] /\ truthy d = true)).
Proof.
  intros env event t. cbv zeta.
  destruct (router_outcomes env event t) as [Hr _]. cbv zeta in Hr.
  destruct Hr as [[d ->] | [s [m [d [-> Hs]]]]].
  - split; [reflexivity|]. split; [simpl; tauto|].
    intro H. exfalso. apply H. reflexivity.
  - destruct (error_response_envelope s m d) as [Hh [Hst [rest [Hb Hrest]]]].
    split; [exact Hh|]. rewrite Hst. split.
    + unfold router_statuses. simpl in *. tauto.
    + intros _. exists m, rest. split; [exact Hb|].
      destruct Hrest as [-> | [-> Hd]]; [left; reflexivity|].
      right. exists d. split; [reflexivity | exact Hd].
Qed.

(** X13.  The download-and-analyse operation never answers 200, whatever
    the request and whatever yt-dlp, the JSON parser and librosa do: its
    status is always 400, 500 or 504. *)
Theorem audio_analysis_never_succeeds :
  forall (env : Env) (query_params : list (string * string)) (t : trace),
    In (statusCode (fst (handle_youtube_audio_with_analysis env query_params t)))
       [400; 500; 504]%Z
    /\ statusCode (fst (handle_youtube_audio_with_analysis env query_params t))
       <> 200%Z.
Proof.
  intros env q t.
  destruct (audio_outcomes env q t) as [[s [m [d [Hr Hs]]]] _].
  rewrite Hr.
  destruct (error_response_envelope s m d) as [_ [-> _]].
  split; [exact Hs|]. simpl in Hs. intro E. subst s.
  destruct Hs as [H | [H | [H | []]]]; discriminate H.
Qed.

(** X14.  The router without a usable request: with no query parameters
    ([queryStringParameters] null or empty) both operations answer 400
    "URL parameter is required", and a path that ends neither in [/info] nor
    in [/audio-with-analysis] (a missing path too) is answered 404; no
    command is run. *)
Theorem router_without_request :
  forall (env : Env) (event : Event) (t : trace),
    let path := match ev_path event with Some p => p | None => "" end in
    ((ev_queryStringParameters event = None
      \/ ev_queryStringParameters event = Some []) ->
     endswith path "/info" || endswith path "/audio-with-analysis" = true ->
     lambda_handler env event t
     = (error_response 400 "URL parameter is required" JNull, t))
    /\ (endswith path "/info" || endswith path "/audio-with-analysis" = false ->
        lambda_handler env event t
        = (error_response 404 "Endpoint not found" JNull, t)).
Proof.
  intros env event t. cbv zeta. unfold lambda_handler. split.
  - intros Hq Hp.
    assert (E : match ev_queryStringParameters event with
                | Some q => q
                | None => []
                end = []) by (destruct Hq as [-> | ->]; reflexivity).
    rewrite E.
    destruct (endswith _ "/info"); [reflexivity|].
    simpl in Hp. rewrite Hp. reflexivity.
  - intro Hp. apply orb_false_iff in Hp. destruct Hp as [-> ->]. reflexivity.
Qed.

Lemma router_without_request_example :
  lambda_handler (sample_env "d200")
    {| ev_path := Some "/api/youtube/audio-with-analysis";
       ev_queryStringParameters := None |} []
  = (error_response 400 "URL parameter is required" JNull, [])
  /\ lambda_handler (sample_env "d200")
       {| ev_path := None; ev_queryStringParameters := None |} []
     = (error_response 404 "Endpoint not found" JNull, []).
Proof.
  split.
  - destruct (router_without_request (sample_env "d200")
                {| ev_path := Some "/api/youtube/audio-with-analysis";
                   ev_queryStringParameters := None |} []) as [H _].
    apply H; [left; reflexivity | reflexivity].
  - destruct (router_without_request (sample_env "d200")
                {| ev_path := None; ev_queryStringParameters := None |} [])
      as [_ H].
    apply H. reflexivity.
Defined.

(** With a valid URL both operations run the metadata lookup, and nothing
    else, however the lookup ends. *)
Lemma valid_lookup_always_runs (env : Env) (q : list (string * string))
  (url : string) (t : trace) :
  assoc "url" q = Some url ->
  is_valid_youtube_url url = true ->
  snd (handle_youtube_info env q t) = (t ++ [info_argv url])%list.
Proof.
  intros Hurl Hvalid. unfold handle_youtube_info, info_body.
  rewrite Hurl, (valid_url_nonempty _ Hvalid), Hvalid.
  cbv beta iota delta [bind lift ret subprocess_run info_except negb].
  repeat match goal with
         | |- context [match ?x with _ => _ end] =>
             lazymatch x with
             | context [match _ with _ => _ end] => fail
             | _ => destruct x eqn:?
             end
         end; reflexivity.
Qed.

(** X15.  The three events of [test-handler.py], in any world: the second
    (a URL of example.com) is answered 400 "Invalid YouTube URL" and the third
    (no URL) 400 "URL parameter is required", both without running any
    command; the first is valid, so its only command is the metadata lookup of
    its URL. *)
Theorem test_handler_events :
  forall (env : Env) (t : trace),
    lambda_handler env invalid_event t
    = (error_response 400 "Invalid YouTube URL" JNull, t)
    /\ lambda_handler env missing_event t
       = (error_response 400 "URL parameter is required" JNull, t)
    /\ snd (lambda_handler env info_event t)
       = (t ++ [info_argv "https://www.youtube.com/watch?v=dQw4w9WgXcQ"])%list.
Proof.
  intros env t. split; [reflexivity|]. split; [reflexivity|].
  change (lambda_handler env info_event t)
    with (handle_youtube_info env
            [("url", "https://www.youtube.com/watch?v=dQw4w9WgXcQ")] t).
  apply valid_lookup_always_runs; reflexivity.
Qed.

End Router.

Section MetadataLookup.
Open Scope string_scope.

Ltac split_tests :=
  repeat match goal with
         | |- context [match ?x with _ => _ end] =>
             lazymatch x with
             | context [match _ with _ => _ end] => fail
             | _ => destruct x eqn:?
             end
         end.

(** X16.  What a 200 of the metadata operation guarantees: the URL was
    valid, the lookup exited with 0, its output parsed, and the duration in
    the body is the one of the metadata and is not over 300 (the default 0
    when the metadata has none). *)
Theorem info_success_means_within_limit :
  forall (env : Env) (query_params : list (string * string)) (t : trace),
    statusCode (fst (handle_youtube_info env query_params t)) = 200%Z ->
    exists url info video_info duration fields,
      assoc "url" query_params = Some url
      /\ is_valid_youtube_url url = true
      /\ run env (info_argv url) = Ok info
      /\ returncode info = 0%Z
      /\ json_loads env (stdout info) = Ok video_info
      /\ json_get video_info "duration" (JInt 0) = Ok duration
      /\ json_gt_int duration 300 = Ok false
      /\ body (fst (handle_youtube_info env query_params t)) = JObj fields
      /\ assoc "duration" fields = Some duration.
Proof.
  intros env q t. unfold handle_youtube_info, info_body.
  cbv beta iota delta [bind lift ret subprocess_run info_except negb].
  split_tests; cbn [fst]; intro Hs; try discriminate Hs.
  match goal with
  | H : Z.eqb (returncode _) 0 = true |- _ => apply Z.eqb_eq in H
  end.
  do 5 eexists.
  repeat (split; [first [eassumption | reflexivity]|]).
  reflexivity.
Qed.

Lemma info_success_means_within_limit_example :
  statusCode (fst (handle_youtube_info (sample_env "d300")
                     [("url", sample_url)] [])) = 200%Z
  /\ exists duration,
       json_gt_int duration 300 = Ok false
       /\ duration = JInt 300.
Proof.
  assert (Hs : statusCode (fst (handle_youtube_info (sample_env "d300")
                                  [("url", sample_url)] [])) = 200%Z)
    by reflexivity.
  split; [exact Hs|].
  destruct (@info_success_means_within_limit (sample_env "d300")
              [("url", sample_url)] [] Hs)
    as [url [info [vi [d [fields [_ [_ [_ [_ [_ [_ [Hd [Hb Hf]]]]]]]]]]]]].
  exists d. split; [exact Hd|].
  vm_compute in Hb. injection Hb as <-. vm_compute in Hf. congruence.
Defined.

(** X17.  Defaults of the metadata operation.  When the metadata is a
    dictionary without a [duration], the video is taken to last 0 seconds and
    accepted; the answer is 200 with [title] defaulting to "Unknown",
    [thumbnail] to the empty string, [url] to the requested URL, and [author]
    being [uploader] unless that is missing, null or empty, then [channel],
    then "Unknown". *)
Theorem info_defaults :
  forall (env : Env) (query_params : list (string * string)) (url : string)
         (t : trace) (info : CompletedProcess) (fields : list (string * json)),
    assoc "url" query_params = Some url ->
    is_valid_youtube_url url = true ->
    run env (info_argv url) = Ok info ->
    returncode info = 0%Z ->
    json_loads env (stdout info) = Ok (JObj fields) ->
    assoc "duration" fields = None ->
    handle_youtube_info env query_params t
    = (success_response
         (JObj [("title", field_or fields "title" (JStr "Unknown"));
                ("duration", JInt 0);
                ("thumbnail", field_or fields "thumbnail" (JStr ""));
                ("author",
                 if truthy (field_or fields "uploader" JNull)
                 then field_or fields "uploader" JNull
                 else field_or fields "channel" (JStr "Unknown"));
                ("url", field_or fields "webpage_url" (JStr url))]),
       (t ++ [info_argv url])%list).
Proof.
  intros env q url t info fields Hurl Hvalid Hrun Hexit Hjson Hnone.
  assert (Hd : json_get (JObj fields) "duration" (JInt 0) = Ok (JInt 0))
    by (unfold json_get; rewrite Hnone; reflexivity).
  rewrite (info_after_metadata env q t Hurl Hvalid Hrun Hexit Hjson Hd).
  reflexivity.
Qed.

Lemma info_defaults_example :
  handle_youtube_info (world (completed 0 "") (Ok (JObj [("uploader", JStr "")])))
    [("url", sample_url)] []
  = (success_response
       (JObj [("title", JStr "Unknown"); ("duration", JInt 0);
              ("thumbnail", JStr ""); ("author", JStr "Unknown");
              ("url", JStr sample_url)]),
     [info_argv sample_url]).
Proof.
  rewrite (@info_defaults
             (world (completed 0 "") (Ok (JObj [("uploader", JStr "")])))
             [("url", sample_url)] sample_url []
             {| returncode := 0; stdout := "{}"; stderr := "" |}
             [("uploader", JStr "")]
             eq_refl eq_refl eq_refl eq_refl eq_refl eq_refl).
  reflexivity.
Defined.

(** X18.  A metadata lookup that exits with a non-zero status is answered
    500 by both operations.  The metadata operation passes yt-dlp's error
    output on as [details], unless it is empty, in which case the body has
    only [error]; the download-and-analyse operation never passes it on. *)
Theorem lookup_failure_is_500 :
  forall (env : Env) (query_params : list (string * string)) (url : string)
         (t : trace) (info : CompletedProcess),
    assoc "url" query_params = Some url ->
    is_valid_youtube_url url = true ->
    run env (info_argv url) = Ok info ->
    returncode info <> 0%Z ->
    handle_youtube_info env query_params t
    = ({| statusCode := 500;
          headers := json_headers;
          body := JObj (("error", JStr "Failed to fetch video information")
                        :: if String.eqb (stderr info) "" then []
                           else [("details", JStr (stderr info))]) |},
       (t ++ [info_argv url])%list)
    /\ handle_youtube_audio_with_analysis env query_params t
       = ({| statusCode := 500;
             headers := json_headers;
             body := JObj [("error", JStr "Failed to get video information")] |},
          (t ++ [info_argv url])%list).
Proof.
  intros env q url t info Hurl Hvalid Hrun Hexit.
  apply Z.eqb_neq in Hexit.
  unfold handle_youtube_info, info_body, handle_youtube_audio_with_analysis,
    audio_body.
  rewrite Hurl, (valid_url_nonempty _ Hvalid), Hvalid.
  cbv beta iota delta [bind lift ret subprocess_run negb].
  rewrite Hrun, Hexit. cbv beta iota.
  split; [|reflexivity].
  unfold error_response, truthy. destruct (String.eqb (stderr info) ""); reflexivity.
Qed.

Lemma lookup_failure_is_500_example :
  body (fst (handle_youtube_info (world (completed 1 "") (Ok JNull))
               [("url", sample_url)] []))
  = JObj [("error", JStr "Failed to fetch video information")]
  /\ body (fst (handle_youtube_info
                  (world (completed 1 "ERROR: Video unavailable") (Ok JNull))
                  [("url", sample_url)] []))
     = JObj [("error", JStr "Failed to fetch video information");
             ("details", JStr "ERROR: Video unavailable")].
Proof.
  split.
  - destruct (@lookup_failure_is_500 (world (completed 1 "") (Ok JNull))
                [("url", sample_url)] sample_url []
                {| returncode := 1; stdout := "{}"; stderr := "" |}
                eq_refl eq_refl eq_refl ltac:(discriminate)) as [H _].
    rewrite H. reflexivity.
  - destruct (@lookup_failure_is_500
                (world (completed 1 "ERROR: Video unavailable") (Ok JNull))
                [("url", sample_url)] sample_url []
                {| returncode := 1; stdout := "{}";
                   stderr := "ERROR: Video unavailable" |}
                eq_refl eq_refl eq_refl ltac:(discriminate)) as [H _].
    rewrite H. reflexivity.
Defined.

(** X19.  When running the metadata lookup raises, both operations answer
    504 if the exception is the timeout and 500 for any other exception (for
    instance yt-dlp not being installed); the body has no [details]. *)
Theorem lookup_exception_status :
  forall (env : Env) (query_params : list (string * string)) (url : string)
         (t : trace) (e : exn),
    assoc "url" query_params = Some url ->
    is_valid_youtube_url url = true ->
    run env (info_argv url) = Raise e ->
    let status := match e with TimeoutExpired => 504%Z | _ => 500%Z end in
    statusCode (fst (handle_youtube_info env query_params t)) = status
    /\ statusCode (fst (handle_youtube_audio_with_analysis env query_params t))
       = status
    /\ (e = TimeoutExpired ->
        handle_youtube_info env query_params t
        = (error_response 504 "Request timeout" JNull, (t ++ [info_argv url])%list)
        /\ handle_youtube_audio_with_analysis env query_params t
           = (error_response 504 "Request timeout" JNull,
              (t ++ [info_argv url])%list)).
Proof.
  intros env q url t e Hurl Hvalid Hrun. cbv zeta.
  unfold handle_youtube_info, info_body, handle_youtube_audio_with_analysis,
    audio_body.
  rewrite Hurl, (valid_url_nonempty _ Hvalid), Hvalid.
  cbv beta iota delta [bind lift ret subprocess_run negb].
  rewrite Hrun. cbv beta iota.
  split; [destruct e; reflexivity|]. split; [destruct e; reflexivity|].
  intros ->. split; reflexivity.
Qed.

Lemma lookup_exception_status_example :
  statusCode (fst (handle_youtube_info
                     (world (Raise (OtherError "No such file or directory: 'yt-dlp'"))
                            (Ok JNull))
                     [("url", sample_url)] [])) = 500%Z
  /\ statusCode (fst (handle_youtube_audio_with_analysis
                        (world (Raise TimeoutExpired) (Ok JNull))
                        [("url", sample_url)] [])) = 504%Z.
Proof.
  split.
  - destruct (@lookup_exception_status
                (world (Raise (OtherError "No such file or directory: 'yt-dlp'"))
                       (Ok JNull))
                [("url", sample_url)] sample_url []
                (OtherError "No such file or directory: 'yt-dlp'")
                eq_refl eq_refl eq_refl) as [H _].
    exact H.
  - destruct (@lookup_exception_status
                (world (Raise TimeoutExpired) (Ok JNull))
                [("url", sample_url)] sample_url [] TimeoutExpired
                eq_refl eq_refl eq_refl) as [_ [H _]].
    exact H.
Defined.

(** X20.  Metadata that cannot be used is a 500, never a 400 or a 200: when
    the output of the lookup does not parse, the metadata operation answers
    "Failed to parse video information" and the download-and-analyse operation
    "Failed to process: " followed by the parser's message; when the duration
    is not a number (null, a string, a list, a dictionary), both answer 500
    with the message of the failed comparison. *)
Theorem unusable_metadata_is_500 :
  forall (env : Env) (query_params : list (string * string)) (url : string)
         (t : trace) (info : CompletedProcess),
    assoc "url" query_params = Some url ->
    is_valid_youtube_url url = true ->
    run env (info_argv url) = Ok info ->
    returncode info = 0%Z ->
    (forall msg,
        json_loads env (stdout info) = Raise (JSONDecodeError msg) ->
        handle_youtube_info env query_params t
        = (error_response 500 "Failed to parse video information" JNull,
           (t ++ [info_argv url])%list)
        /\ handle_youtube_audio_with_analysis env query_params t
           = (error_response 500 ("Failed to process: " ++ msg) JNull,
              (t ++ [info_argv url])%list))
    /\ (forall video_info duration,
          json_loads env (stdout info) = Ok video_info ->
          json_get video_info "duration" (JInt 0) = Ok duration ->
          not_a_number duration = true ->
          statusCode (fst (handle_youtube_info env query_params t)) = 500%Z
          /\ statusCode (fst (handle_youtube_audio_with_analysis env query_params t))
             = 500%Z).
Proof.
  intros env q url t info Hurl Hvalid Hrun Hexit. split.
  - intros msg Hjson.
    unfold handle_youtube_info, info_body, handle_youtube_audio_with_analysis,
      audio_body.
    rewrite Hurl, (valid_url_nonempty _ Hvalid), Hvalid.
    cbv beta iota delta [bind lift ret subprocess_run negb].
    rewrite Hrun, Hexit. cbv beta iota delta [Z.eqb].
    rewrite Hjson. split; reflexivity.
  - intros video_info duration Hjson Hd Hnan.
    rewrite (info_after_metadata env q t Hurl Hvalid Hrun Hexit Hjson Hd).
    rewrite (audio_after_metadata env q t Hurl Hvalid Hrun Hexit Hjson Hd).
    destruct duration; try discriminate Hnan; split; reflexivity.
Qed.

Lemma unusable_metadata_is_500_example :
  statusCode (fst (handle_youtube_info
                     (world (completed 0 "") (Ok (JObj [("duration", JNull)])))
                     [("url", sample_url)] [])) = 500%Z.
Proof.
  destruct (@unusable_metadata_is_500
              (world (completed 0 "") (Ok (JObj [("duration", JNull)])))
              [("url", sample_url)] sample_url []
              {| returncode := 0; stdout := "{}"; stderr := "" |}
              eq_refl eq_refl eq_refl eq_refl) as [_ H].
  destruct (H (JObj [("duration", JNull)]) JNull eq_refl eq_refl eq_refl)
    as [Hi _].
  exact Hi.
Defined.

End MetadataLookup.

(* ================================================================== *)
(** ** Links the validator accepts *)
(* ================================================================== *)

Section Links.
Open Scope string_scope.

Lemma id_char_not_special (a : ascii) :
  id_char a = true -> mem_ascii a "/?#;&=%+[]@: " = false.
Proof.
  destruct a as [[] [] [] [] [] [] [] []]; vm_compute; congruence.
Qed.

Lemma id_char_safe (a : ascii) :
  id_char a = true ->
  negb (existsb (Nat.eqb (nat_of_ascii a)) [9; 10; 13]%nat) = true.
Proof.
  destruct a as [[] [] [] [] [] [] [] []]; vm_compute; congruence.
Qed.

Lemma partition_absent (c : ascii) (s : string) :
  mem_ascii c s = false -> partition c s = None.
Proof.
  induction s as [|a s IH]; [reflexivity|].
  unfold mem_ascii. simpl. intro H. apply orb_false_iff in H.
  destruct H as [Hc Hs]. rewrite Ascii.eqb_sym, Hc.
  rewrite (IH Hs). reflexivity.
Qed.

Lemma split_absent (c : ascii) (s : string) :
  mem_ascii c s = false -> split c s = [s].
Proof.
  induction s as [|a s IH]; [reflexivity|].
  unfold mem_ascii. simpl. intro H. apply orb_false_iff in H.
  destruct H as [Hc Hs]. rewrite Ascii.eqb_sym, Hc.
  rewrite (IH Hs). reflexivity.
Qed.

Lemma filter_string_all (p : ascii -> bool) (s : string) :
  forallb_string p s = true -> filter_string p s = s.
Proof.
  induction s as [|a s IH]; [reflexivity|].
  simpl. intro H. apply andb_true_iff in H. destruct H as [Ha Hs].
  rewrite Ha, (IH Hs). reflexivity.
Qed.

Lemma forallb_string_impl (p r : ascii -> bool) (s : string) :
  (forall a, p a = true -> r a = true) ->
  forallb_string p s = true -> forallb_string r s = true.
Proof.
  intro Himp. induction s as [|a s IH]; [reflexivity|].
  simpl. intro H. apply andb_true_iff in H. destruct H as [Ha Hs].
  rewrite (Himp a Ha), (IH Hs). reflexivity.
Qed.

Lemma id_without (c : ascii) (id : string) :
  mem_ascii c "/?#;&=%+[]@: " = true ->
  forallb_string id_char id = true -> mem_ascii c id = false.
Proof.
  intros Hc. induction id as [|a s IH]; [reflexivity|].
  simpl. intro H. apply andb_true_iff in H. destruct H as [Ha Hs].
  unfold mem_ascii. simpl. fold (mem_ascii c s). rewrite (IH Hs).
  rewrite orb_false_r.
  destruct (Ascii.eqb c a) eqn:E; [|reflexivity].
  apply Ascii.eqb_eq in E. subst a.
  rewrite (id_char_not_special _ Ha) in Hc. discriminate Hc.
Qed.

Lemma remove_unsafe_id (id : string) :
  forallb_string id_char id = true -> remove_unsafe id = id.
Proof.
  intro H. unfold remove_unsafe. apply filter_string_all.
  revert H. apply forallb_string_impl. exact id_char_safe.
Qed.

Ltac known t v := replace t with v by reflexivity; cbv beta iota.

Lemma urlparse_short_link (id : string) :
  forallb_string id_char id = true ->
  urlparse ("https://youtu.be/" ++ id)
  = Ok {| scheme := "https"; netloc := "youtu.be"; path := "/" ++ id;
          params := ""; query := ""; fragment := "" |}.
Proof.
  intro Hid. unfold urlparse, urlsplit.
  assert (E0 : remove_unsafe (lstrip_c0 ("https://youtu.be/" ++ id))
               = "https://youtu.be/" ++ id).
  { change (lstrip_c0 ("https://youtu.be/" ++ id)) with ("https://youtu.be/" ++ id).
    change (remove_unsafe ("https://youtu.be/" ++ id))
      with ("https://youtu.be/" ++ remove_unsafe id).
    rewrite (remove_unsafe_id _ Hid). reflexivity. }
  assert (E1 : partition "#" ("/" ++ id) = None).
  { apply partition_absent.
    change (mem_ascii "#" ("/" ++ id)) with (mem_ascii "#" id).
    apply id_without; [reflexivity | exact Hid]. }
  assert (E2 : partition "?" ("/" ++ id) = None).
  { apply partition_absent.
    change (mem_ascii "?" ("/" ++ id)) with (mem_ascii "?" id).
    apply id_without; [reflexivity | exact Hid]. }
  assert (E3 : mem_ascii ";" ("/" ++ id) = false).
  { change (mem_ascii ";" ("/" ++ id)) with (mem_ascii ";" id).
    apply id_without; [reflexivity | exact Hid]. }
  rewrite E0.
  known (partition ":" ("https://youtu.be/" ++ id))
        (Some ("https", "//youtu.be/" ++ id)).
  known (negb ("https" =? "") && forallb_string scheme_char "https") true.
  known (lower "https") "https".
  known ("//youtu.be/" ++ id) (String "/" (String "/" ("youtu.be/" ++ id))).
  known (break_at (fun c => mem_ascii c "/?#") ("youtu.be/" ++ id))
        ("youtu.be", "/" ++ id).
  known (mem_ascii "[" "youtu.be" && negb (mem_ascii "]" "youtu.be")
         || mem_ascii "]" "youtu.be" && negb (mem_ascii "[" "youtu.be")) false.
  rewrite E1. cbv beta iota. rewrite E2. cbv beta iota delta [rbind].
  rewrite E3, andb_false_r. reflexivity.
Qed.

Lemma urlparse_watch_link (id : string) :
  forallb_string id_char id = true ->
  urlparse ("https://www.youtube.com/watch?v=" ++ id)
  = Ok {| scheme := "https"; netloc := "www.youtube.com"; path := "/watch";
          params := ""; query := "v=" ++ id; fragment := "" |}.
Proof.
  intro Hid. unfold urlparse, urlsplit.
  assert (E0 : remove_unsafe (lstrip_c0 ("https://www.youtube.com/watch?v=" ++ id))
               = "https://www.youtube.com/watch?v=" ++ id).
  { change (lstrip_c0 ("https://www.youtube.com/watch?v=" ++ id))
      with ("https://www.youtube.com/watch?v=" ++ id).
    change (remove_unsafe ("https://www.youtube.com/watch?v=" ++ id))
      with ("https://www.youtube.com/watch?v=" ++ remove_unsafe id).
    rewrite (remove_unsafe_id _ Hid). reflexivity. }
  assert (E1 : partition "#" ("/watch?v=" ++ id) = None).
  { apply partition_absent.
    change (mem_ascii "#" ("/watch?v=" ++ id)) with (mem_ascii "#" id).
    apply id_without; [reflexivity | exact Hid]. }
  rewrite E0.
  known (partition ":" ("https://www.youtube.com/watch?v=" ++ id))
        (Some ("https", "//www.youtube.com/watch?v=" ++ id)).
  known (negb ("https" =? "") && forallb_string scheme_char "https") true.
  known (lower "https") "https".
  known ("//www.youtube.com/watch?v=" ++ id)
        (String "/" (String "/" ("www.youtube.com/watch?v=" ++ id))).
  known (break_at (fun c => mem_ascii c "/?#") ("www.youtube.com/watch?v=" ++ id))
        ("www.youtube.com", "/watch?v=" ++ id).
  known (mem_ascii "[" "www.youtube.com" && negb (mem_ascii "]" "www.youtube.com")
         || mem_ascii "]" "www.youtube.com" && negb (mem_ascii "[" "www.youtube.com"))
        false.
  rewrite E1. cbv beta iota.
  known (partition "?" ("/watch?v=" ++ id)) (Some ("/watch", "v=" ++ id)).
  cbv beta iota delta [rbind].
  known (mem_ascii ";" "/watch") false.
  rewrite andb_false_r. reflexivity.
Qed.

Lemma parse_qs_v (id : string) :
  id <> "" ->
  forallb_string id_char id = true ->
  dict_mem "v" (parse_qs ("v=" ++ id)) = true.
Proof.
  intros Hne Hid. unfold parse_qs, parse_qsl.
  assert (E : split "&" ("v=" ++ id) = ["v=" ++ id]).
  { apply split_absent.
    change (mem_ascii "&" ("v=" ++ id)) with (mem_ascii "&" id).
    apply id_without; [reflexivity | exact Hid]. }
  rewrite E. cbv beta iota delta [flat_map].
  known ("v=" ++ id =? "") false.
  known (partition "=" ("v=" ++ id)) (Some ("v", id)).
  apply String.eqb_neq in Hne. rewrite Hne. reflexivity.
Qed.

(** X21.  Every standard link is accepted: for a non-empty identifier made
    of letters, digits, [-] and [_], both [https://youtu.be/<id>] and
    [https://www.youtube.com/watch?v=<id>] pass the validator. *)
Theorem standard_links_are_valid :
  forall id : string,
    id <> "" ->
    forallb_string id_char id = true ->
    is_valid_youtube_url ("https://youtu.be/" ++ id) = true
    /\ is_valid_youtube_url ("https://www.youtube.com/watch?v=" ++ id) = true.
Proof.
  intros id Hne Hid. unfold is_valid_youtube_url. split.
  - rewrite (urlparse_short_link _ Hid). cbv beta iota zeta.
    known (lowered_hostname
             {| scheme := "https"; netloc := "youtu.be"; path := "/" ++ id;
                params := ""; query := ""; fragment := "" |}) "youtu.be".
    known (existsb (String.eqb "youtu.be") youtube_hosts) false.
    known ("youtu.be" =? "youtu.be") true.
    destruct id as [|a id']; [congruence | reflexivity].
  - rewrite (urlparse_watch_link _ Hid). cbv beta iota zeta.
    known (lowered_hostname
             {| scheme := "https"; netloc := "www.youtube.com"; path := "/watch";
                params := ""; query := "v=" ++ id; fragment := "" |})
          "www.youtube.com".
    known (existsb (String.eqb "www.youtube.com") youtube_hosts) true.
    cbn [path query]. rewrite (parse_qs_v Hne Hid). reflexivity.
Qed.

Lemma standard_links_are_valid_example :
  "dQw4w9WgXcQ" <> ""
  /\ forallb_string id_char "dQw4w9WgXcQ" = true
  /\ is_valid_youtube_url "https://youtu.be/dQw4w9WgXcQ" = true
  /\ is_valid_youtube_url "https://www.youtube.com/watch?v=dQw4w9WgXcQ" = true.
Proof.
  assert (H1 : "dQw4w9WgXcQ" <> "") by discriminate.
  assert (H2 : forallb_string id_char "dQw4w9WgXcQ" = true) by reflexivity.
  split; [exact H1|]. split; [exact H2|].
  exact (@standard_links_are_valid "dQw4w9WgXcQ" H1 H2).
Defined.

End Links.
